(** * Labeling tools: records, saves and retry loops

    A shallow embedding of the two Streamlit scripts
    [backend/custom_picker.py] (the click picker) and
    [backend/sampler_sentinel.py] (the Sentinel-2 sampler), and the proofs
    of the properties their specification states about them.

    Python values decoded from JSON are an inductive type, dictionaries are
    finite maps, the exceptions a statement can raise are a sum type, and
    the scripts' effects (the in-memory [records] list, the two dataset
    files, the session state and the calls that leave the process) are
    threaded through a state-and-exception monad. *)

From Stdlib Require Import ZArith NArith PrimFloat Ascii String DecimalString
  DecimalNat.
From stdpp Require Import base option list gmap strings.

Local Open Scope string_scope.
Local Open Scope nat_scope.
Local Open Scope list_scope.

(** ** Python values *)

Module Py.

(** A Python [str] is a sequence of Unicode code points. Dictionary keys are
    kept as byte strings (their UTF-8 encoding, which is injective): only
    their equality is ever observed. *)
Abbreviation str := (list N).

(** The values [json.load] and [getInfo()] produce, with dictionaries as
    finite maps: Python compares dictionaries by content, not by order. *)
#[warnings="-register-all"]
Inductive val :=
| None_
| Bool (b : bool)
| Int (z : Z)
| Float (f : float)
| Str (s : str)
| List (l : list val)
| Dict (d : gmap string val).

(** The exceptions of the statements modelled here; all of them are
    subclasses of [Exception]. *)
Inductive exn :=
| KeyError (k : string + nat)
| IndexError
| TypeError
| AttributeError
| ValueError
| EEException
| RequestException
| UnidentifiedImageError
| OverflowError
| ArrowTypeError
| ArrowInvalid.

(** The outcome of evaluating an expression. *)
Inductive res (A : Type) :=
| Ok (a : A)
| Raise (e : exn).
Arguments Ok {A} a.
Arguments Raise {A} e.

Definition res_bind {A B} (f : A → res B) (m : res A) : res B :=
  match m with
  | Ok a => f a
  | Raise e => Raise e
  end.

#[export] Instance res_mret : MRet res := @Ok.
#[export] Instance res_mbind : MBind res := @res_bind.

(** [[f x for x in xs]]: the elements are evaluated left to right and the
    first exception ends the comprehension. *)
Fixpoint comprehension {A B} (f : A → res B) (xs : list A) : res (list B) :=
  match xs with
  | [] => Ok []
  | x :: xs' => y ← f x; ys ← comprehension f xs'; Ok (y :: ys)
  end.

(** [v[k]] for a string key [k]. *)
Definition getitem (v : val) (k : string) : res val :=
  match v with
  | Dict d => match d !! k with
              | Some x => Ok x
              | None => Raise (KeyError (inl k))
              end
  | _ => Raise TypeError
  end.

(** [v.get(k)]: only dictionaries have the method; a missing key is [None]. *)
Definition get (v : val) (k : string) : res val :=
  match v with
  | Dict d => Ok (default None_ (d !! k))
  | _ => Raise AttributeError
  end.

(** [v[i]] for a non-negative integer literal [i]. *)
Definition index (v : val) (i : nat) : res val :=
  match v with
  | List l => match l !! i with
              | Some x => Ok x
              | None => Raise IndexError
              end
  | Str s => match s !! i with
             | Some c => Ok (Str [c])
             | None => Raise IndexError
             end
  | Dict _ => Raise (KeyError (inr i))
  | _ => Raise TypeError
  end.

(** [str.isspace] on one code point: the characters CPython's
    [_PyUnicode_IsWhitespace] accepts. *)
Definition isspace (c : N) : bool :=
  ((9 <=? c) && (c <=? 13) || (28 <=? c) && (c <=? 32)
   || (c =? 133) || (c =? 160) || (c =? 5760)
   || (8192 <=? c) && (c <=? 8202)
   || (c =? 8232) || (c =? 8233) || (c =? 8239) || (c =? 8287)
   || (c =? 12288))%N.

(** [s.lstrip()], [s.rstrip()] and [s.strip()] without argument. *)
Fixpoint lstrip (s : str) : str :=
  match s with
  | [] => []
  | c :: s' => if isspace c then lstrip s' else s
  end.

Definition rstrip (s : str) : str := reverse (lstrip (reverse s)).

Definition strip (s : str) : str := rstrip (lstrip s).

(** Truth value of a [str]: the empty string is false. *)
Definition truthy (s : str) : bool :=
  match s with
  | [] => false
  | _ => true
  end.

(** A literal of the source as a [str]. *)
Definition of_string (s : string) : str :=
  N_of_ascii <$> list_ascii_of_string s.

End Py.

Import Py.

(** ** The embedding vector's band names *)

(** [f"{i:02d}"]: decimal, zero-padded on the left to two digits. *)
Definition format_02d (i : nat) : string :=
  let s := NilEmpty.string_of_uint (Nat.to_uint i) in
  match s with
  | "" => "00"
  | String c "" => String "0" (String c "")
  | _ => s
  end.

(** [band_names = [f"A{i:02d}" for i in range(64)]] *)
Definition band_names : list string :=
  (λ i, "A" +:+ format_02d i) <$> seq 0 64.

(** ** Objects that live outside the process *)

(** Earth Engine geometries are lazy server-side expressions; the scripts
    build them and hand them back to the service. *)
Inductive geom :=
| Point (lon lat : val)               (* ee.Geometry.Point([lon, lat]) *)
| RandomPoint (seed : Z)              (* randomPoints(roi, 1, seed).first().geometry() *)
| BufferBounds (g : geom) (m : Z).    (* g.buffer(m).bounds() *)

(** A decoded thumbnail, standing for the bytes it was opened from. *)
Inductive image := Image (content : list Byte.byte).

(** What the scripts keep in tuples and in the session state. *)
Inductive obj :=
| OVal (v : val)
| OGeom (g : geom)
| OImage (i : image).

Abbreviation ONone := (OVal None_).

(** The content of [JSON_PATH]: absent, not parsable, or the array
    [json.dump] wrote there. *)
Inductive jfile :=
| Missing
| Unreadable
| Array (l : list (gmap string val)).

(** A data frame, row by row; every row has one cell per column. *)
Abbreviation table := (list (gmap string val)).

(** One pass of the random-point loop as the outside world answers it. *)
Record draw := Draw {
  seed : Z;                           (* random.randint(0, 999999) *)
  coordinates : res (list val);       (* pt.coordinates().getInfo() *)
  mean_B4 : res val                   (* reduceRegion(...).get("B4").getInfo() *)
}.

(** One pass of the thumbnail loop as the outside world answers it. *)
Record attempt := Attempt {
  thumb_url : res str;                        (* s2_rgb.getThumbURL({...}) *)
  response : res (Z * list Byte.byte);        (* requests.get: status_code, content *)
  pil_open : res unit                         (* PILImage.open(BytesIO(content)) *)
}.

(** What a run does that can be observed from outside, in order. *)
Inductive event :=
| Sample (region : geom) (scale : Z) (numPixels : option Z)
| DumpJson (l : list (gmap string val))
| WriteTable (t : table)
| Success (n : nat) (caption : str)
| Warning (msg : string)
| Randint (s : Z)
| GetThumbURL (region : geom) (dimensions : Z)
| HttpGet (url : str) (timeout : Z)
| Sleep (seconds : float)
| Rerun.

(** ** The state of a run *)

Record world := World {
  records : list (gmap string val);       (* the list [records] *)
  json_file : jfile;                      (* JSON_PATH *)
  parquet_file : option table;            (* PARQUET_PATH *)
  current : option (obj * obj * obj * obj); (* st.session_state.current *)
  trace : list event
}.

Definition set_records (l : list (gmap string val)) (w : world) : world :=
  World l (json_file w) (parquet_file w) (current w) (trace w).
Definition set_json_file (j : jfile) (w : world) : world :=
  World (records w) j (parquet_file w) (current w) (trace w).
Definition set_parquet_file (t : option table) (w : world) : world :=
  World (records w) (json_file w) t (current w) (trace w).
Definition set_current (c : option (obj * obj * obj * obj)) (w : world) : world :=
  World (records w) (json_file w) (parquet_file w) c (trace w).
Definition log (e : event) (w : world) : world :=
  World (records w) (json_file w) (parquet_file w) (current w) (trace w ++ [e]).

(** Statements run in a state monad over [world]; an exception ends the
    statement and leaves the state as it was when it was raised. *)
Definition M (A : Type) : Type := world → res A * world.

Definition M_ret {A} (a : A) : M A := λ w, (Ok a, w).

Definition M_bind {A B} (f : A → M B) (m : M A) : M B :=
  λ w, match m w with
       | (Ok a, w') => f a w'
       | (Raise e, w') => (Raise e, w')
       end.

#[export] Instance M_mret : MRet M := @M_ret.
#[export] Instance M_mbind : MBind M := @M_bind.

Definition lift {A} (r : res A) : M A := λ w, (r, w).
Definition emit (e : event) : M unit := λ w, (Ok (), log e w).
Definition modify (f : world → world) : M unit := λ w, (Ok (), f w).
Definition read {A} (f : world → A) : M A := λ w, (Ok (f w), w).

(** [try: m except Exception: ...]: the outcome of [m] as a value. *)
Definition try_except {A} (m : M A) : M (res A) :=
  λ w, let '(r, w') := m w in (Ok r, w').

(** [for x in xs: body] *)
Fixpoint for_each {A} (xs : list A) (body : A → M unit) : M unit :=
  match xs with
  | [] => mret ()
  | x :: xs' => body x ≫= λ _, for_each xs' body
  end.

(** ** The save actions *)

(** What the annotator does to save, in either tool. *)
Inductive action :=
| PickerSave (lon lat : val)          (* a click, then "Save Sample" *)
| SentinelSubmit (square : geom).     (* "Submit & Next" with a caption *)


(** ** Inputs of the concrete runs *)

Module Run.

(** The sidebar defaults. *)
Definition THUMB_METERS : Z := 1000.
Definition SAMPLE_SCALE : Z := 100.
Definition THUMB_PIXELS : Z := 512.

(** A feature of the sample call that carries two of the 64 bands. *)
Definition feature : val :=
  Dict {[ "type" := Str (of_string "Feature");
          "geometry" :=
            Dict {[ "type" := Str (of_string "Point");
                    "coordinates" := List [Float (-98.5); Float 39.25] ]};
          "properties" :=
            Dict {[ "A00" := Float 0.125; "A63" := Float (-0.5) ]} ]}.

Definition click : action := PickerSave (Float (-98.5)) (Float 39.25).
Definition shown : action :=
  SentinelSubmit (BufferBounds (RandomPoint 424242) THUMB_METERS).

Definition caption : str := of_string " corn field ".
Definition blank : str := of_string "   ".

Definition empty_labels : world := World [] Missing None None [].

(** A service that refuses every request, as under rate limiting. *)
Definition rate_limited : nat → draw :=
  λ _, Draw 424242 (Raise EEException) (Raise EEException).
Definition no_thumbnail : nat → attempt :=
  λ _, Attempt (Raise EEException) (Raise RequestException)
               (Raise UnidentifiedImageError).

(** A feature without a geometry. *)
Definition no_geometry : val :=
  Dict {[ "type" := Str (of_string "Feature");
          "properties" := Dict {[ "A00" := Float 0.125 ]} ]}.

(** A record of another tool: no embedding and sampling fields. *)
Definition foreign_record : gmap string val :=
  {[ "lon" := Float (-98.5); "lat" := Float 39.25;
     "caption" := Str (of_string "barn") ]}.

(** A labels directory whose JSON file cannot be parsed while the parquet
    file still holds a row. *)
Definition broken_json : world :=
  World [] Unreadable (Some [foreign_record]) None [].

(** A service whose third draw is the first with coverage. *)
Definition covered_third : nat → draw :=
  λ j, if j <? 2
       then Draw (Z.of_nat j) (Ok [Float (-120.5); Float 47.25]) (Ok None_)
       else Draw 424242 (Ok [Float (-98.5); Float 39.25]) (Ok (Float 812.5)).

(** A service that answers the third draw with a single coordinate. *)
Definition one_coordinate_third : nat → draw :=
  λ j, if j <? 2
       then Draw (Z.of_nat j) (Ok [Float (-120.5); Float 47.25]) (Ok None_)
       else Draw 424242 (Ok [Float (-98.5)]) (Ok (Float 812.5)).

(** Thumbnail attempts: a 429 response first, an image second. *)
Definition png : list Byte.byte := repeat Byte.x89 (Z.to_nat 10001).
Definition url : str := of_string "https://earthengine.googleapis.com/thumb".
Definition loads_second : nat → attempt :=
  λ j, if j =? 0
       then Attempt (Ok url) (Ok (429%Z, [])) (Ok ())
       else Attempt (Ok url) (Ok (200%Z, png)) (Ok ()).

(** The session with the point of draw 424242 as its current point. *)
Definition on_display : world :=
  World [] Missing None
        (Some (OGeom (RandomPoint 424242), OVal (Float (-98.5)),
               OVal (Float 39.25),
               OGeom (BufferBounds (RandomPoint 424242) THUMB_METERS)))
        [].

(** The session after a search that found no point. *)
Definition nothing_found : world :=
  World [] Missing None (Some (ONone, ONone, ONone, ONone)) [].

(** What the map returns after a click. *)
Definition clicked : val :=
  Dict {[ "last_clicked" :=
            Dict {[ "lat" := Float 39.25; "lng" := Float (-98.5) ]} ]}.

(** The conversion to Arrow as far as these runs need it: an integer
    beyond 64 bits, in a cell or in a list cell, cannot be converted
    ([OverflowError]); every other frame of these runs is typed. *)
Definition fits_64_bits (v : val) : bool :=
  match v with
  | Int z => ((- 2 ^ 63 <=? z) && (z <? 2 ^ 64))%Z
  | _ => true
  end.

Definition arrow (df : list (gmap string val)) : res unit :=
  if forallb (λ r, forallb (λ kv, match kv.2 with
                                  | List l => forallb fits_64_bits l
                                  | v => fits_64_bits v
                                  end)
                           (map_to_list r)) df
  then Ok ()
  else Raise OverflowError.

(** A feature with two of the 64 bands whose first coordinate is an
    integer beyond 64 bits. *)
Definition far_feature : val :=
  Dict {[ "type" := Str (of_string "Feature");
          "geometry" :=
            Dict {[ "type" := Str (of_string "Point");
                    "coordinates" := List [Int (10 ^ 30); Float 39.25] ]};
          "properties" :=
            Dict {[ "A00" := Float 0.125; "A63" := Float (-0.5) ]} ]}.

End Run.

(** ** The scripts *)

Section Scripts.

(** The sidebar parameters, integers between their widgets' bounds. *)
Variables THUMB_METERS SAMPLE_SCALE THUMB_PIXELS : Z.

(** [pa.Table.from_pandas(df)] gives every column of the frame an Arrow
    type and raises ([ArrowTypeError], [ArrowInvalid], [OverflowError])
    on a column it cannot type. Which frames it accepts is pyarrow's
    business, not the scripts': [to_arrow] is its verdict on a frame. *)
Variable to_arrow : table → res unit.

(** The record both tools append for a feature [f]:
    [vals] first, then the dictionary display, entry by entry. *)
Definition make_record (caption : str) (f : val) : res (gmap string val) :=
  vals ← comprehension (λ b, p ← getitem f "properties"; get p b) band_names;
  lon ← (g ← getitem f "geometry"; c ← getitem g "coordinates"; index c 0);
  lat ← (g ← getitem f "geometry"; c ← getitem g "coordinates"; index c 1);
  Ok ({[ "lon" := lon;
         "lat" := lat;
         "caption" := Str (strip caption);
         "alphaearth" := List vals;
         "thumb_m" := Int THUMB_METERS;
         "sample_scale" := Int SAMPLE_SCALE ]} : gmap string val).

(** [records.append(...)] *)
Definition append (r : gmap string val) : M unit :=
  modify (λ w, set_records (records w ++ [r]) w).

(** [alpha_img.sample(...).getInfo()["features"]], answered by the service
    with the features or with an exception. *)
Definition sample_features (region : geom) (numPixels : option Z)
    (answer : res (list val)) : M (list val) :=
  emit (Sample region SAMPLE_SCALE numPixels) ≫= λ _, lift answer.

(** The loop over [feats] of both save handlers. *)
Definition append_all (caption : str) (feats : list val) : M unit :=
  for_each feats (λ f, r ← lift (make_record caption f); append r).

(** [json.dump(records, open(JSON_PATH, "w"), indent=2)] *)
Definition dump_json : M unit :=
  recs ← read records;
  emit (DumpJson recs) ≫= λ _,
  modify (set_json_file (Array recs)).

(** [pq.write_table(pa.Table.from_pandas(df), PARQUET_PATH)]: the
    argument is evaluated first, so an exception of the conversion leaves
    the file untouched. *)
Definition write_table (df : table) : M unit :=
  lift (to_arrow df) ≫= λ _,
  emit (WriteTable df) ≫= λ _,
  modify (set_parquet_file (Some df)).

(** [pd.DataFrame(records)] on a list of dictionaries: the columns are the
    keys of all of them, and a record without a column's key has NaN there. *)
Definition DataFrame (recs : list (gmap string val)) : table :=
  let columns : gset string := ⋃ (dom <$> recs) in
  (λ r, r ∪ gset_to_gmap (Float nan) columns) <$> recs.

(** [records = []], then [json.load] under [try ... except: pass]. *)
Definition load_records : M unit :=
  modify (λ w, set_records (match json_file w with
                            | Array l => l
                            | Missing | Unreadable => []
                            end) w).

(** *** custom_picker.py *)

(** The body of [if st.button("Save Sample"):] for a click at [lon], [lat]. *)
Definition save_sample (lon lat : val) (caption : str)
    (answer : res (list val)) : M unit :=
  let pt := Point lon lat in
  let square := BufferBounds pt THUMB_METERS in
  feats ← sample_features square None answer;
  append_all caption feats ≫= λ _,
  dump_json ≫= λ _,
  (recs ← read records; write_table (DataFrame recs)) ≫= λ _,
  emit (Success (length feats) caption).

(** *** sampler_sentinel.py *)

(** The dictionary [save_parquet] builds for a record [r]. *)
Definition parquet_row (r : gmap string val) : res (gmap string val) :=
  lon ← getitem (Dict r) "lon";
  lat ← getitem (Dict r) "lat";
  caption ← getitem (Dict r) "caption";
  thumb_m ← getitem (Dict r) "thumb_m";
  sample_scale ← getitem (Dict r) "sample_scale";
  alphaearth ← getitem (Dict r) "alphaearth";
  Ok ({[ "lon" := lon;
         "lat" := lat;
         "caption" := caption;
         "thumb_m" := thumb_m;
         "sample_scale" := sample_scale;
         "alphaearth" := alphaearth ]} : gmap string val).

(** [save_parquet(records, path)]: every row of [df_new] has the six
    columns, so the frame is the list of the dictionaries. *)
Definition save_parquet (recs : list (gmap string val)) : M unit :=
  df_new ← lift (comprehension parquet_row recs);
  write_table df_new.

(** [lon, lat = xs] *)
Definition unpack2 (xs : list val) : res (val * val) :=
  match xs with
  | [a; b] => Ok (a, b)
  | _ => Raise ValueError
  end.

(** The loop of [get_random_valid_point], [n] passes left, the next one
    being pass [i]. *)
Fixpoint random_point_loop (draws : nat → draw) (i n : nat)
    : M (obj * obj * obj * obj) :=
  match n with
  | 0 => mret (ONone, ONone, ONone, ONone)
  | S n' =>
      let d := draws i in
      emit (Randint (seed d)) ≫= λ _,
      let pt := RandomPoint (seed d) in
      '(lon, lat) ← lift (coordinates d ≫= unpack2);
      let square := BufferBounds pt THUMB_METERS in
      v ← lift (mean_B4 d);
      match v with
      | None_ => random_point_loop draws (S i) n'
      | _ => mret (OGeom pt, OVal lon, OVal lat, OGeom square)
      end
  end.

Definition get_random_valid_point (max_tries : nat) (draws : nat → draw)
    : M (obj * obj * obj * obj) :=
  random_point_loop draws 0 max_tries.

(** [get_random_valid_point()]: every call site takes the default. *)
Definition max_tries : nat := 6.

(** One pass of the body of the [try] in [fetch_valid_thumbnail]:
    [Some (url, img)] stands for the [return], [None] for falling through. *)
Definition fetch_once (square : geom) (timeout : Z) (a : attempt)
    : M (option (obj * obj)) :=
  url ← (emit (GetThumbURL square THUMB_PIXELS) ≫= λ _, lift (thumb_url a));
  r ← (emit (HttpGet url timeout) ≫= λ _, lift (response a));
  let '(status_code, content) := r in
  if ((status_code =? 200) && (10000 <? Z.of_nat (length content)))%Z then
    lift (pil_open a) ≫= λ _,
    mret (Some (OVal (Str url), OImage (Image content)))
  else mret None.

Fixpoint thumbnail_loop (square : geom) (timeout : Z)
    (attempts : nat → attempt) (i n : nat) : M (obj * obj) :=
  match n with
  | 0 => mret (ONone, ONone)
  | S n' =>
      r ← try_except (fetch_once square timeout (attempts i));
      match r with
      | Ok (Some found) => mret found
      | Ok None => thumbnail_loop square timeout attempts (S i) n'
      | Raise _ =>
          emit (Sleep 0.5) ≫= λ _,
          thumbnail_loop square timeout attempts (S i) n'
      end
  end.

Definition fetch_valid_thumbnail (square : geom) (tries : nat) (timeout : Z)
    (attempts : nat → attempt) : M (obj * obj) :=
  thumbnail_loop square timeout attempts 0 tries.

(** [fetch_valid_thumbnail(square)]: the defaults of the only call site. *)
Definition tries : nat := 4.
Definition timeout : Z := 8.

(** [st.session_state.current = get_random_valid_point(); st.rerun()] *)
Definition next_sample (draws : nat → draw) : M unit :=
  c ← get_random_valid_point max_tries draws;
  modify (set_current (Some c)) ≫= λ _,
  emit Rerun.

(** [0.3], the double nearest to it as in Python. *)
#[warnings="-inexact-float"]
Definition spinner_pause : float := 0.3.

(** The thumbnail stage: [fetch_valid_thumbnail(square)] and the pause
    under the spinner, then on [img is None] a warning, a new random point
    and a rerun; otherwise the image is shown and the script goes on. *)
Definition show_thumbnail (square : geom) (attempts : nat → attempt)
    (draws : nat → draw) : M unit :=
  '(url, img) ← fetch_valid_thumbnail square tries timeout attempts;
  emit (Sleep spinner_pause) ≫= λ _,
  match img with
  | ONone =>
      emit (Warning "Could not load image (likely rate-limited). Retrying automatically...") ≫= λ _,
      next_sample draws
  | _ => mret ()
  end.

(** The statements of [if caption.strip():] up to the success message. *)
Definition save_submission (square : geom) (caption : str)
    (answer : res (list val)) : M unit :=
  feats ← sample_features square (Some 100%Z) answer;
  append_all caption feats ≫= λ _,
  dump_json ≫= λ _,
  (recs ← read records; save_parquet recs) ≫= λ _,
  emit (Success (length feats) caption).

(** The body of [if save_btn:] for the region [square] on display. *)
Definition submit (square : geom) (caption : str)
    (answer : res (list val)) (draws : nat → draw) : M unit :=
  if truthy (strip caption) then
    save_submission square caption answer ≫= λ _,
    next_sample draws
  else
    emit (Warning "Enter a caption before submitting.").

(** The body of [if skip_btn:]. *)
Definition skip (draws : nat → draw) : M unit := next_sample draws.

(** *** Save actions of either tool *)

Definition perform (a : action) (caption : str) (answer : res (list val))
    : M unit :=
  match a with
  | PickerSave lon lat => save_sample lon lat caption answer
  | SentinelSubmit square => save_submission square caption answer
  end.

(** A button press reruns the script from the top: [records] is loaded
    again before the handler runs. *)
Definition run (a : action) (caption : str) (answer : res (list val))
    : M unit :=
  load_records ≫= λ _, perform a caption answer.


(** *** The scripts from top to bottom *)

(** [bool(v)]: the truth value of a decoded JSON value. *)
Definition truth (v : val) : bool :=
  match v with
  | None_ => false
  | Bool b => b
  | Int z => negb (z =? 0)%Z
  | Float f => negb (PrimFloat.eqb f 0)
  | Str s => truthy s
  | List l => match l with [] => false | _ => true end
  | Dict d => negb (size d =? 0)
  end.

(** [f"{v:.5f}"] and [f"{v:.3f}"]: numbers format, a string raises
    [ValueError], anything else [TypeError]. Only whether the formatting
    raises matters here; the text goes to the page. *)
Definition format_f (v : val) : res unit :=
  match v with
  | Bool _ | Int _ | Float _ => Ok ()
  | Str _ => Raise ValueError
  | None_ | List _ | Dict _ => Raise TypeError
  end.

(** custom_picker.py after the map is drawn: [output] is what [st_folium]
    returned, [save_btn] whether "Save Sample" was pressed in this run. The
    dataset summary that follows only reads the parquet file. *)
Definition picker_script (output : val) (caption : str) (save_btn : bool)
    (answer : res (list val)) : M unit :=
  load_records ≫= λ _,
  clicked ← lift (if truth output
                  then c ← get output "last_clicked"; Ok (truth c)
                  else Ok false);
  if (clicked : bool) then
    lon ← lift (c ← getitem output "last_clicked"; getitem c "lng");
    lat ← lift (c ← getitem output "last_clicked"; getitem c "lat");
    lift (format_f lat ≫= λ _, format_f lon) ≫= λ _,
    if save_btn then save_sample lon lat caption answer else mret ()
  else mret ().

(** The sampler also keeps ["initialized"] in the session state: a run of
    its script goes from one pair of that flag and the rest of the state to
    the next. *)
Definition Script (A : Type) : Type := bool * world → res A * (bool * world).

Definition Script_ret {A} (a : A) : Script A := λ s, (Ok a, s).

Definition Script_bind {A B} (f : A → Script B) (m : Script A) : Script B :=
  λ s, match m s with
       | (Ok a, s') => f a s'
       | (Raise e, s') => (Raise e, s')
       end.

#[export] Instance Script_mret : MRet Script := @Script_ret.
#[export] Instance Script_mbind : MBind Script := @Script_bind.

Definition in_world {A} (m : M A) : Script A :=
  λ s, let '(r, w') := m s.2 in (r, (s.1, w')).

(** ["initialized" in st.session_state] and
    [st.session_state.initialized = True] *)
Definition initialized : Script bool := λ s, (Ok s.1, s).
Definition set_initialized (b : bool) : Script unit := λ s, (Ok (), (b, s.2)).

(** How a run of the sampler's script ends: [st.rerun()], [st.stop()]
    (after [st.error] or not), or at the dataset summary, which only reads
    the parquet file. *)
Inductive ending :=
| Reran
| Stopped (error : option string)
| Finished.

(** [f"... ({lat:.3f}, {lon:.3f})"] on the entries of the current tuple. *)
Definition format_coordinate (o : obj) : res unit :=
  match o with
  | OVal v => format_f v
  | OGeom _ | OImage _ => Raise TypeError
  end.

(** The landing page, shown until ["initialized"] is in the session. *)
Definition landing (start_btn : bool) (first_draws : nat → draw)
    : Script ending :=
  if start_btn then
    set_initialized true ≫= λ _,
    in_world (next_sample first_draws) ≫= λ _,
    mret Reran
  else mret (Stopped None).

(** [if "current" not in st.session_state: ...], then the tuple read. *)
Definition ensure_current (first_draws : nat → draw)
    : Script (obj * obj * obj * obj) :=
  cur ← in_world (read current);
  match cur with
  | Some c => mret c
  | None =>
      c ← in_world (get_random_valid_point max_tries first_draws);
      in_world (modify (set_current (Some c))) ≫= λ _,
      mret c
  end.

(** The image on display with its caption, then the two buttons: skip is
    looked at first and reruns before the save button is. *)
Definition buttons (sq : geom) (lon lat : obj) (save_btn skip_btn : bool)
    (caption : str) (answer : res (list val)) (draws : nat → draw)
    : Script ending :=
  in_world (lift (format_coordinate lat ≫= λ _, format_coordinate lon)) ≫= λ _,
  if skip_btn then
    in_world (skip draws) ≫= λ _, mret Reran
  else if save_btn then
    in_world (submit sq caption answer draws) ≫= λ _,
    mret (if truthy (strip caption) then Reran else Finished)
  else mret Finished.

(** The thumbnail stage and what follows it. *)
Definition thumbnail_stage (sq : geom) (lon lat : obj)
    (save_btn skip_btn : bool) (caption : str) (attempts : nat → attempt)
    (answer : res (list val)) (draws : nat → draw) : Script ending :=
  '(url, img) ← in_world (fetch_valid_thumbnail sq tries timeout attempts);
  in_world (emit (Sleep spinner_pause)) ≫= λ _,
  match img with
  | ONone =>
      in_world (emit (Warning "Could not load image (likely rate-limited). Retrying automatically...")) ≫= λ _,
      in_world (next_sample draws) ≫= λ _,
      mret Reran
  | _ => buttons sq lon lat save_btn skip_btn caption answer draws
  end.

(** [pt, lon, lat, square = st.session_state.current] and the rest of the
    script. The session's tuple is always one that
    [get_random_valid_point] returned, whose square is a geometry whenever
    its point is; for any other tuple the region handed to the service
    would not be one, which is a [TypeError] here. *)
Definition with_current (c : obj * obj * obj * obj)
    (save_btn skip_btn : bool) (caption : str) (attempts : nat → attempt)
    (answer : res (list val)) (draws : nat → draw) : Script ending :=
  let '(pt, lon, lat, square) := c in
  match pt, square with
  | ONone, _ =>
      mret (Stopped (Some "Could not find visible imagery; try smaller thumbnail or larger scale."))
  | _, OGeom sq =>
      thumbnail_stage sq lon lat save_btn skip_btn caption attempts answer draws
  | _, _ => in_world (lift (Raise TypeError))
  end.

(** sampler_sentinel.py from the loading of [records] to the buttons.
    [first_draws] answers the search made when the session has no current
    point yet (the landing page and line 148), [draws] the one a handler
    makes later in the run. *)
Definition sentinel_script (start_btn save_btn skip_btn : bool)
    (caption : str) (first_draws : nat → draw) (attempts : nat → attempt)
    (answer : res (list val)) (draws : nat → draw) : Script ending :=
  in_world load_records ≫= λ _,
  init ← initialized;
  if negb init then landing start_btn first_draws
  else
    c ← ensure_current first_draws;
    with_current c save_btn skip_btn caption attempts answer draws.

(** ** Vocabulary of the properties *)

(** The keys of a record the tools write. *)
Definition fields : gset string :=
  {[ "lon"; "lat"; "caption"; "alphaearth"; "thumb_m"; "sample_scale" ]}.

(** A record as the tools write it: exactly the six fields. *)
Definition tool_written (r : gmap string val) : Prop := dom r = fields.

(** The records the loop over [feats] appends: one per feature, up to the
    first feature whose record cannot be built. *)
Fixpoint built (caption : str) (feats : list val) : list (gmap string val) :=
  match feats with
  | [] => []
  | f :: feats' =>
      match make_record caption f with
      | Ok r => r :: built caption feats'
      | Raise _ => []
      end
  end.

(** How the loop over [feats] ends: normally, or with the exception of the
    first feature whose record cannot be built. *)
Fixpoint loop_outcome (caption : str) (feats : list val) : res unit :=
  match feats with
  | [] => Ok ()
  | f :: feats' =>
      match make_record caption f with
      | Ok _ => loop_outcome caption feats'
      | Raise e => Raise e
      end
  end.

(** The region, the pixel limit and the data frame of a save action. *)
Definition region (a : action) : geom :=
  match a with
  | PickerSave lon lat => BufferBounds (Point lon lat) THUMB_METERS
  | SentinelSubmit square => square
  end.

Definition num_pixels (a : action) : option Z :=
  match a with
  | PickerSave _ _ => None
  | SentinelSubmit _ => Some 100%Z
  end.

Definition frame (a : action) (recs : list (gmap string val)) : res table :=
  match a with
  | PickerSave _ _ => Ok (DataFrame recs)
  | SentinelSubmit _ => comprehension parquet_row recs
  end.

(** The record of a feature with properties [props] at [lon], [lat]. *)
Definition record_of (caption : str) (props : gmap string val)
    (lon lat : val) : gmap string val :=
  {[ "lon" := lon;
     "lat" := lat;
     "caption" := Str (strip caption);
     "alphaearth" := List ((λ b, default None_ (props !! b)) <$> band_names);
     "thumb_m" := Int THUMB_METERS;
     "sample_scale" := Int SAMPLE_SCALE ]}.

(** A feature with a property dictionary and a point geometry, whatever
    bands its properties hold. *)
Definition located (f : val) : Prop :=
  ∃ d props g lon lat rest,
    f = Dict d ∧ d !! "properties" = Some (Dict props) ∧
    d !! "geometry" = Some (Dict g) ∧
    g !! "coordinates" = Some (List (lon :: lat :: rest)).

(** The property dictionary of a feature, when it has one. *)
Definition properties_of (f : val) : option (gmap string val) :=
  match f with
  | Dict d => match d !! "properties" with
              | Some (Dict props) => Some props
              | _ => None
              end
  | _ => None
  end.

(** The rows a dataset file holds. *)
Definition json_rows (w : world) : nat :=
  match json_file w with
  | Array l => length l
  | Missing | Unreadable => 0
  end.

Definition parquet_rows (w : world) : nat :=
  match parquet_file w with
  | Some t => length t
  | None => 0
  end.

(** A state that differs from [w] by the events [evs] only. *)
Definition logs (evs : list event) (w : world) : world :=
  World (records w) (json_file w) (parquet_file w) (current w)
        (trace w ++ evs).

(** The dataset files agree as far as the parquet file goes: both are
    absent, or the JSON array holds tool-written records and the parquet
    file, when there is one, holds the first of them. *)
Definition in_sync (w : world) : Prop :=
  match json_file w, parquet_file w with
  | Missing, None => True
  | Array l, None => Forall tool_written l
  | Array l, Some t => t `prefix_of` l ∧ Forall tool_written l
  | _, _ => False
  end.

(** The states a tool reaches from an empty [labels] directory by runs of
    its save action, whatever the service answers. *)
Inductive session : world → Prop :=
| session_start : session (World [] Missing None None [])
| session_run w a caption answer :
    session w → session (run a caption answer w).2.

(** Passes of the two loops, read off the trace. *)
Definition is_draw (e : event) : bool :=
  match e with Randint _ => true | _ => false end.
Definition is_attempt (e : event) : bool :=
  match e with GetThumbURL _ _ => true | _ => false end.
Definition is_sleep (e : event) : bool :=
  match e with Sleep _ => true | _ => false end.
Definition is_sample (e : event) : bool :=
  match e with Sample _ _ _ => true | _ => false end.

Definition count (p : event → bool) (t : list event) : nat :=
  length (filter (λ e, p e = true) t).

(** A draw the service answers with a point and no coverage there. *)
Definition no_coverage (d : draw) : Prop :=
  (∃ lon lat, coordinates d = Ok [lon; lat]) ∧ mean_B4 d = Ok None_.

(** An attempt that yields an image: a URL, a 200 response of more than
    10000 bytes, and bytes that open as an image. *)
Definition loads (a : attempt) : bool :=
  match thumb_url a, response a, pil_open a with
  | Ok _, Ok (status_code, content), Ok _ =>
      ((status_code =? 200) && (10000 <? Z.of_nat (length content)))%Z
  | _, _, _ => false
  end.

(** An attempt whose pass through the [try] body raises. *)
Definition raises (a : attempt) : bool :=
  match thumb_url a, response a with
  | Raise _, _ => true
  | Ok _, Raise _ => true
  | Ok _, Ok (status_code, content) =>
      if ((status_code =? 200) && (10000 <? Z.of_nat (length content)))%Z
      then match pil_open a with Raise _ => true | Ok _ => false end
      else false
  end.

(** A record can be built for the feature. *)
Definition buildable (caption : str) (f : val) : Prop :=
  ∃ r, make_record caption f = Ok r.

(** The tuples [get_random_valid_point] returns. *)
Definition no_point : obj * obj * obj * obj := (ONone, ONone, ONone, ONone).

Definition point_at (s : Z) (lon lat : val) (m : Z) : obj * obj * obj * obj :=
  (OGeom (RandomPoint s), OVal lon, OVal lat,
   OGeom (BufferBounds (RandomPoint s) m)).

(** The draws of the passes [i], ..., [i + n - 1]. *)
Definition draws_made (draws : nat → draw) (i n : nat) : list event :=
  (λ j, Randint (seed (draws j))) <$> seq i n.

(** Reading a decimal string back. *)
Definition decimal (s : string) : option nat :=
  Nat.of_uint <$> NilEmpty.uint_of_string s.

(** A draw during which the service raises [e]: on the coordinates (or
    their unpacking into two values), or on the coverage value. *)
Definition draw_raises (d : draw) (e : exn) : Prop :=
  coordinates d ≫= unpack2 = Raise e ∨
  (∃ p, coordinates d ≫= unpack2 = Ok p) ∧ mean_B4 d = Raise e.

(** The session's current point is absent or one the search returned, for
    some value of the thumbnail half-size. *)
Definition searched (c : option (obj * obj * obj * obj)) : Prop :=
  match c with
  | None => True
  | Some t => t = no_point ∨ ∃ s lon lat m, t = point_at s lon lat m
  end.

(** [records] as the top of a script leaves it. *)
Definition loaded (w : world) : world :=
  set_records (match json_file w with
               | Array l => l
               | Missing | Unreadable => []
               end) w.

(** The dataset files of [w'] are those of [w]. *)
Definition same_files (w w' : world) : Prop :=
  json_file w' = json_file w ∧ parquet_file w' = parquet_file w.

(** What it takes for a run of the sampler to reach a file write. *)
Definition save_requested (save_btn skip_btn : bool) (caption : str)
    (attempts : nat → attempt) (answer : res (list val)) : Prop :=
  skip_btn = false ∧ save_btn = true ∧
  Exists (λ c, isspace c = false) caption ∧
  (∃ feats, answer = Ok feats) ∧
  ∃ k, k < tries ∧ loads (attempts k) = true.

(** ** Evaluating the monads *)

Ltac run_M :=
  unfold mbind, mret, M_mbind, M_mret, M_bind, M_ret, lift, emit, modify, read,
    try_except in *.

Ltac run_res :=
  unfold mbind, mret, res_mbind, res_mret, res_bind in *.

Lemma set_records_id w : set_records (records w) w = w.
Proof. by destruct w. Qed.

(** ** Comprehensions *)

Lemma comprehension_Forall2 {A B} (f : A → res B) xs ys :
  comprehension f xs = Ok ys → Forall2 (λ x y, f x = Ok y) xs ys.
Proof.
  revert ys. induction xs as [|x xs IH]; intros ys; simpl.
  - intros [= <-]. constructor.
  - run_res. destruct (f x) as [y|e] eqn:Hx; [|done].
    destruct (comprehension f xs) as [ys'|e] eqn:Hxs; [|done].
    intros [= <-]. constructor; [done|]. by apply IH.
Qed.

Lemma comprehension_fmap {A B} (f : A → res B) (g : A → B) xs :
  (∀ x, x ∈ xs → f x = Ok (g x)) → comprehension f xs = Ok (g <$> xs).
Proof.
  induction xs as [|x xs IH]; intros H; simpl; [done|].
  run_res. rewrite H by left. rewrite IH; [done|].
  intros y Hy. apply H. by right.
Qed.

(** ** Band names *)

Lemma band_names_length : length band_names = 64.
Proof. reflexivity. Qed.

Lemma band_names_head : band_names = "A00" :: tail band_names.
Proof. reflexivity. Qed.



(** ** Building a record *)

Lemma properties_of_getitem f props :
  properties_of f = Some props → getitem f "properties" = Ok (Dict props).
Proof.
  destruct f as [| | | | | |d]; simpl; try done.
  destruct (d !! "properties") as [[]|]; naive_solver.
Qed.

Lemma bands_of_properties f props :
  properties_of f = Some props →
  comprehension (λ b, p ← getitem f "properties"; get p b) band_names
  = Ok ((λ b, default None_ (props !! b)) <$> band_names).
Proof.
  intros H. apply comprehension_fmap. intros b _.
  by rewrite (properties_of_getitem _ _ H).
Qed.

Lemma bands_need_properties f vals :
  comprehension (λ b, p ← getitem f "properties"; get p b) band_names = Ok vals →
  ∃ props, properties_of f = Some props.
Proof.
  rewrite band_names_head. simpl. run_res.
  destruct f as [| | | | | |d]; simpl; try done.
  destruct (d !! "properties") as [[]|]; simpl; try done. eauto.
Qed.

Lemma make_record_inv caption f r :
  make_record caption f = Ok r →
  ∃ props lon lat,
    properties_of f = Some props ∧ r = record_of caption props lon lat.
Proof.
  unfold make_record.
  destruct (comprehension _ band_names) as [vals|] eqn:Hvals; [|done].
  destruct (bands_need_properties _ _ Hvals) as [props Hprops].
  rewrite (bands_of_properties _ _ Hprops) in Hvals.
  injection Hvals as <-. run_res.
  destruct (getitem f "geometry") as [g|]; [|done].
  destruct (getitem g "coordinates") as [c|]; [|done].
  destruct (index c 0) as [lon|]; [|done].
  destruct (index c 1) as [lat|]; [|done].
  intros [= <-]. by exists props, lon, lat.
Qed.

Lemma make_record_located caption f :
  located f →
  ∃ props lon lat,
    properties_of f = Some props ∧
    make_record caption f = Ok (record_of caption props lon lat).
Proof.
  intros (d & props & g & lon & lat & rest & -> & Hp & Hg & Hc).
  exists props, lon, lat.
  assert (Hprops : properties_of (Dict d) = Some props) by (simpl; by rewrite Hp).
  split; [done|].
  unfold make_record. rewrite (bands_of_properties _ _ Hprops).
  run_res. simpl. rewrite Hg. simpl. by rewrite Hc.
Qed.

(** The fields of a record the tools build. *)
Lemma record_of_fields caption props lon lat :
  tool_written (record_of caption props lon lat).
Proof.
  unfold tool_written, record_of, fields.
  rewrite !dom_insert_L, dom_singleton_L. set_solver.
Qed.

Lemma record_of_alphaearth caption props lon lat :
  record_of caption props lon lat !! "alphaearth"
  = Some (List ((λ b, default None_ (props !! b)) <$> band_names)).
Proof. unfold record_of. by simplify_map_eq. Qed.

Lemma record_of_caption caption props lon lat :
  record_of caption props lon lat !! "caption" = Some (Str (strip caption)).
Proof. unfold record_of. by simplify_map_eq. Qed.

(** ** The loop over the features *)

Lemma loop_outcome_Ok caption feats :
  loop_outcome caption feats = Ok () →
  Forall2 (λ f r, make_record caption f = Ok r) feats (built caption feats).
Proof.
  induction feats as [|f feats IH]; simpl; [constructor|].
  destruct (make_record caption f) eqn:Hf; [|done].
  intros H. constructor; [done|]. by apply IH.
Qed.

Lemma loop_outcome_located caption feats :
  Forall located feats → loop_outcome caption feats = Ok ().
Proof.
  induction 1 as [|f feats Hf _ IH]; simpl; [done|].
  destruct (make_record_located caption f Hf) as (? & ? & ? & _ & ->). done.
Qed.

Lemma built_records caption feats :
  Forall (λ r, ∃ props lon lat, r = record_of caption props lon lat)
         (built caption feats).
Proof.
  induction feats as [|f feats IH]; simpl; [constructor|].
  destruct (make_record caption f) as [r|] eqn:Hf; [|constructor].
  constructor; [|done].
  destruct (make_record_inv _ _ _ Hf) as (props & lon & lat & _ & ->). eauto.
Qed.

Lemma append_all_spec caption feats w :
  append_all caption feats w
  = (loop_outcome caption feats,
     set_records (records w ++ built caption feats) w).
Proof.
  unfold append_all. revert w.
  induction feats as [|f feats IH]; intros w; simpl.
  - by rewrite app_nil_r, set_records_id.
  - run_M. unfold append. destruct (make_record caption f) as [r|e]; simpl.
    + rewrite IH. destruct w; simpl. unfold set_records; simpl.
      by rewrite <- app_assoc.
    + by rewrite app_nil_r, set_records_id.
Qed.

(** ** What a save action does, step by step *)

Lemma perform_spec a caption answer w :
  perform a caption answer w =
  let w0 := log (Sample (region a) SAMPLE_SCALE (num_pixels a)) w in
  match answer with
  | Raise e => (Raise e, w0)
  | Ok feats =>
      let recs := records w ++ built caption feats in
      match loop_outcome caption feats with
      | Raise e => (Raise e, set_records recs w0)
      | Ok _ =>
          let w1 :=
            log (DumpJson recs)
                (set_json_file (Array recs) (set_records recs w0)) in
          match frame a recs with
          | Raise e => (Raise e, w1)
          | Ok t =>
              match to_arrow t with
              | Raise e => (Raise e, w1)
              | Ok _ =>
                  (Ok (),
                   log (Success (length feats) caption)
                       (log (WriteTable t) (set_parquet_file (Some t) w1)))
              end
          end
      end
  end.
Proof.
  destruct a as [lon lat|square]; simpl;
    unfold save_sample, save_submission, sample_features, dump_json,
      save_parquet, write_table;
    run_M; destruct answer as [feats|e]; simpl; try done;
    rewrite append_all_spec;
    destruct (loop_outcome caption feats) as [[]|e]; simpl; try done.
  - by destruct (to_arrow _) as [[]|e].
  - destruct (comprehension parquet_row _) as [t|e]; simpl; [|done].
    by destruct (to_arrow t) as [[]|e].
Qed.

(** ** The data frames *)

Lemma fill_id (r : gmap string val) (x : val) (cols : gset string) :
  cols ⊆ dom r → r ∪ gset_to_gmap x cols = r.
Proof.
  intros Hsub. apply map_eq. intros k. rewrite lookup_union.
  destruct (r !! k) as [v|] eqn:Hk.
  - by destruct (gset_to_gmap x cols !! k).
  - rewrite lookup_gset_to_gmap, option_guard_False; [done|].
    intros Hin. apply Hsub, elem_of_dom in Hin. rewrite Hk in Hin.
    by destruct Hin.
Qed.

Lemma columns_tool_written (recs : list (gmap string val)) :
  Forall tool_written recs → ⋃ (dom <$> recs) ⊆ fields.
Proof.
  intros Hall. induction Hall as [|r recs Hr Hall IH]; simpl; [set_solver|].
  rewrite Hr. apply union_subseteq. by split.
Qed.

Lemma DataFrame_tool_written recs :
  Forall tool_written recs → DataFrame recs = recs.
Proof.
  intros Hall. unfold DataFrame.
  pose proof (columns_tool_written recs Hall) as Hcols.
  rewrite <- (list_fmap_id recs) at 2.
  apply Forall_fmap_ext_1.
  eapply Forall_impl; [exact Hall|]. intros r Hr. simpl.
  apply fill_id. by rewrite Hr.
Qed.

Lemma DataFrame_length recs : length (DataFrame recs) = length recs.
Proof. unfold DataFrame. by rewrite length_fmap. Qed.

Lemma DataFrame_lookup recs i r :
  recs !! i = Some r →
  ∃ row, DataFrame recs !! i = Some row ∧
         ∀ k v, r !! k = Some v → row !! k = Some v.
Proof.
  intros Hi. unfold DataFrame. cbv zeta.
  eexists. split; [by rewrite list_lookup_fmap, Hi|]. intros k v Hk.
  by rewrite lookup_union, Hk, union_Some_l.
Qed.

Lemma parquet_row_inv r row :
  parquet_row r = Ok row →
  dom row = fields ∧ ∀ k v, row !! k = Some v → r !! k = Some v.
Proof.
  unfold parquet_row, getitem. run_res.
  destruct (r !! "lon") as [lon|] eqn:H1; [|done].
  destruct (r !! "lat") as [lat|] eqn:H2; [|done].
  destruct (r !! "caption") as [cap|] eqn:H3; [|done].
  destruct (r !! "thumb_m") as [tm|] eqn:H4; [|done].
  destruct (r !! "sample_scale") as [ss|] eqn:H5; [|done].
  destruct (r !! "alphaearth") as [ae|] eqn:H6; [|done].
  intros [= <-]. split.
  - unfold fields. rewrite !dom_insert_L, dom_singleton_L. set_solver.
  - intros k v Hk.
    repeat (apply lookup_insert_Some in Hk as [[<- <-]|[_ Hk]]; [done|]).
    apply lookup_singleton_Some in Hk as [<- <-]. done.
Qed.

Lemma parquet_row_tool_written r : tool_written r → parquet_row r = Ok r.
Proof.
  intros Hr.
  assert (Hin : ∀ k, k ∈ fields → is_Some (r !! k)).
  { intros k Hk. apply elem_of_dom. by rewrite Hr. }
  unfold parquet_row, getitem. run_res.
  destruct (Hin "lon") as [lon H1]; [set_solver|]. rewrite H1.
  destruct (Hin "lat") as [lat H2]; [set_solver|]. rewrite H2.
  destruct (Hin "caption") as [cap H3]; [set_solver|]. rewrite H3.
  destruct (Hin "thumb_m") as [tm H4]; [set_solver|]. rewrite H4.
  destruct (Hin "sample_scale") as [ss H5]; [set_solver|]. rewrite H5.
  destruct (Hin "alphaearth") as [ae H6]; [set_solver|]. rewrite H6.
  f_equal. apply map_eq. intros k.
  destruct (decide (k ∈ fields)) as [Hk|Hk].
  - unfold fields in Hk.
    repeat (apply elem_of_union in Hk as [Hk|Hk]);
      apply elem_of_singleton in Hk as ->; by simplify_map_eq.
  - assert (r !! k = None) as ->.
    { apply not_elem_of_dom. by rewrite Hr. }
    unfold fields in Hk.
    rewrite !lookup_insert_ne, lookup_singleton_ne; [done|..];
      intros <-; apply Hk; set_solver.
Qed.

Lemma frame_tool_written a recs :
  Forall tool_written recs → frame a recs = Ok recs.
Proof.
  intros Hall. destruct a; simpl.
  - by rewrite DataFrame_tool_written.
  - rewrite (comprehension_fmap _ id), list_fmap_id; [done|].
    intros r Hr. apply parquet_row_tool_written.
    by eapply Forall_forall in Hall.
Qed.

Lemma frame_rows a recs t :
  frame a recs = Ok t →
  length t = length recs ∧
  ∀ i r, recs !! i = Some r →
    ∃ row, t !! i = Some row ∧
      ∀ k v, k ∈ fields → r !! k = Some v → row !! k = Some v.
Proof.
  destruct a; simpl.
  - intros [= <-]. split; [apply DataFrame_length|].
    intros i r Hi. destruct (DataFrame_lookup recs i r Hi) as (row & ? & Hrow).
    exists row. eauto.
  - intros Hc. apply comprehension_Forall2 in Hc. split.
    + symmetry. by eapply Forall2_length.
    + intros i r Hi.
      destruct (Forall2_lookup_l _ _ _ _ _ Hc Hi) as (row & Hrow & Hrr).
      exists row. split; [done|]. intros k v Hk Hv.
      destruct (parquet_row_inv _ _ Hrr) as [Hdom Hsub].
      assert (is_Some (row !! k)) as [v' Hv'].
      { apply elem_of_dom. by rewrite Hdom. }
      rewrite Hv'. f_equal. apply Hsub in Hv'. congruence.
Qed.

(** ** Traces *)

Lemma logs_nil w : logs [] w = w.
Proof. destruct w. unfold logs; simpl. by rewrite app_nil_r. Qed.

Lemma logs_logs evs1 evs2 w : logs evs2 (logs evs1 w) = logs (evs1 ++ evs2) w.
Proof. unfold logs; simpl. by rewrite app_assoc. Qed.

Lemma log_logs e w : log e w = logs [e] w.
Proof. done. Qed.

Lemma count_app p t1 t2 : count p (t1 ++ t2) = count p t1 + count p t2.
Proof. unfold count. by rewrite filter_app, length_app. Qed.

Lemma count_nil p : count p [] = 0.
Proof. done. Qed.

Lemma count_cons p e t :
  count p (e :: t) = (if p e then 1 else 0) + count p t.
Proof.
  unfold count. rewrite filter_cons.
  destruct (p e); case_decide; simpl; congruence.
Qed.

(** ** The random-point loop *)

Lemma random_point_loop_trace draws i n w :
  ∃ evs, (random_point_loop draws i n w).2 = logs evs w ∧
         count is_draw evs ≤ n.
Proof.
  revert i w. induction n as [|n IH]; intros i w; simpl.
  - exists []. by rewrite logs_nil.
  - assert (Hstop : ∃ evs, logs [Randint (seed (draws i))] w = logs evs w ∧
                           count is_draw evs ≤ S n).
    { eexists. split; [done|]. rewrite count_cons, count_nil. simpl. lia. }
    run_M. run_res. rewrite log_logs.
    destruct (coordinates (draws i)) as [c|e]; simpl; [|exact Hstop].
    destruct (unpack2 c) as [[lon lat]|e]; simpl; [|exact Hstop].
    destruct (mean_B4 (draws i)) as [v|e]; simpl; [|exact Hstop].
    destruct v; try exact Hstop.
    destruct (IH (S i) (logs [Randint (seed (draws i))] w)) as (evs & -> & Hn).
    eexists. rewrite logs_logs. split; [done|].
    rewrite count_app, count_cons, count_nil. simpl. lia.
Qed.


Lemma count_draws_fmap (draws : nat → draw) l :
  count is_draw ((λ j, Randint (seed (draws j))) <$> l) = length l.
Proof.
  induction l as [|x l IH]; [done|].
  rewrite fmap_cons, count_cons. simpl. by rewrite IH.
Qed.

(** ** The thumbnail loop *)

Lemma fetch_once_spec square to a w :
  ∃ evs r,
    fetch_once square to a w = (r, logs evs w) ∧
    count is_attempt evs = 1 ∧
    Forall (λ e, is_sleep e = false) evs ∧
    match r with
    | Ok (Some _) => loads a = true
    | _ => loads a = false
    end.
Proof.
  unfold fetch_once, loads. run_M. rewrite !log_logs.
  destruct (thumb_url a) as [url|e]; simpl.
  2: { eexists _, _. split; [done|]. repeat split; auto. }
  rewrite ?log_logs, ?logs_logs.
  destruct (response a) as [[status_code content]|e]; simpl.
  2: { eexists _, _. split; [done|]. repeat split; auto. }
  destruct ((status_code =? 200)%Z && (10000 <? Z.of_nat (length content))%Z);
    simpl.
  2: { eexists _, _. split; [done|]. repeat split; auto.
       by destruct (pil_open a). }
  destruct (pil_open a) as [[]|e]; simpl;
    eexists _, _; (split; [done|]); repeat split; auto.
Qed.

Lemma thumbnail_loop_spec square to attempts i n w :
  ∃ evs r,
    thumbnail_loop square to attempts i n w = (Ok r, logs evs w) ∧
    count is_attempt evs ≤ n ∧
    count is_sleep evs ≤ count is_attempt evs ∧
    Forall (λ e, is_sleep e = true → e = Sleep 0.5) evs ∧
    ((∀ j, i ≤ j < i + n → loads (attempts j) = false) →
     r = (ONone, ONone) ∧ count is_attempt evs = n).
Proof.
  revert i w. induction n as [|n IH]; intros i w; simpl.
  - exists [], (ONone, ONone). rewrite logs_nil. repeat split; auto.
  - destruct (fetch_once_spec square to (attempts i) w)
      as (evs1 & r1 & Hrun & Hatt & Hsl & Hr1).
    assert (Hsl0 : count is_sleep evs1 = 0).
    { clear -Hsl. induction Hsl as [|e evs He _ IH]; [done|].
      by rewrite count_cons, He, IH. }
    assert (Hsl1 : Forall (λ e, is_sleep e = true → e = Sleep 0.5) evs1).
    { eapply Forall_impl; [exact Hsl|]. simpl. congruence. }
    run_M. rewrite Hrun.
    destruct r1 as [[found|]|e].
    + exists evs1, found. split_and!; [done|lia|lia|done|].
      intros Hall. rewrite (Hall i) in Hr1; [done|lia].
    + destruct (IH (S i) (logs evs1 w))
        as (evs & r & -> & Hn & Hs & Hhalf & Hfail).
      exists (evs1 ++ evs), r. rewrite logs_logs, !count_app.
      split_and!; [done|lia|lia|by apply Forall_app|].
      intros Hall. destruct Hfail as [-> ->]; [|split; [done|lia]].
      intros j Hj. apply Hall. lia.
    + rewrite log_logs.
      destruct (IH (S i) (logs [Sleep 0.5] (logs evs1 w)))
        as (evs & r & -> & Hn & Hs & Hhalf & Hfail).
      exists (evs1 ++ [Sleep 0.5] ++ evs), r.
      rewrite !logs_logs, !count_app, !count_cons, !count_nil. simpl.
      split_and!; [by rewrite <- ?app_assoc|lia|lia| |].
      * apply Forall_app. split; [done|]. by constructor.
      * intros Hall. destruct Hfail as [-> ->]; [|split; [done|lia]].
        intros j Hj. apply Hall. lia.
Qed.

(** ** Saves *)

Lemma built_length caption feats :
  loop_outcome caption feats = Ok () →
  length (built caption feats) = length feats.
Proof.
  intros H. symmetry. eapply Forall2_length, loop_outcome_Ok, H.
Qed.

(** The state after a save action extends [records] by the records built,
    whatever the outcome. *)
Lemma perform_records a caption answer w :
  ∃ new,
    records (perform a caption answer w).2 = records w ++ new ∧
    ((∃ feats, answer = Ok feats ∧ new = built caption feats) ∨ new = []).
Proof.
  rewrite perform_spec. cbv zeta.
  destruct answer as [feats|e]; simpl.
  2: { exists []. rewrite app_nil_r. eauto. }
  destruct (loop_outcome caption feats) as [[]|e]; simpl.
  2: { exists (built caption feats). eauto. }
  destruct (frame a _) as [t|e]; simpl; [destruct (to_arrow t) as [[]|e]|];
    simpl; exists (built caption feats); eauto.
Qed.

Lemma perform_Ok a caption answer w w' :
  perform a caption answer w = (Ok (), w') →
  ∃ feats t,
    answer = Ok feats ∧
    loop_outcome caption feats = Ok () ∧
    frame a (records w ++ built caption feats) = Ok t ∧
    w' = World (records w ++ built caption feats)
               (Array (records w ++ built caption feats))
               (Some t) (current w)
               (trace w ++ [Sample (region a) SAMPLE_SCALE (num_pixels a);
                            DumpJson (records w ++ built caption feats);
                            WriteTable t;
                            Success (length feats) caption]).
Proof.
  rewrite perform_spec. cbv zeta.
  destruct answer as [feats|e]; [|done].
  destruct (loop_outcome caption feats) as [[]|e] eqn:Hloop; [|done].
  destruct (frame a _) as [t|e] eqn:Ht; [|done].
  destruct (to_arrow t) as [[]|e]; [|done].
  intros [= <-]. exists feats, t. split_and!; try done.
  unfold log, set_parquet_file, set_json_file, set_records; simpl.
  by rewrite <- !app_assoc.
Qed.

(** A save whose records can all be built and whose table can be typed
    completes. *)
Lemma perform_completes a caption feats t w :
  Forall (buildable caption) feats →
  frame a (records w ++ built caption feats) = Ok t →
  to_arrow t = Ok () →
  perform a caption (Ok feats) w
  = (Ok (),
     World (records w ++ built caption feats)
           (Array (records w ++ built caption feats))
           (Some t) (current w)
           (trace w ++ [Sample (region a) SAMPLE_SCALE (num_pixels a);
                        DumpJson (records w ++ built caption feats);
                        WriteTable t;
                        Success (length feats) caption])).
Proof.
  intros Hfeats Ht Harrow. rewrite perform_spec. cbv zeta.
  assert (Hloop : loop_outcome caption feats = Ok ()).
  { clear -Hfeats. induction Hfeats as [|f feats [r Hf] _ IH]; simpl; [done|].
    by rewrite Hf. }
  rewrite Hloop, Ht, Harrow.
  unfold log, set_parquet_file, set_json_file, set_records; simpl.
  by rewrite <- !app_assoc.
Qed.

(** C1: for every save action of either tool that completes, the number of
    records appended (to the list, and so to the JSON array and the parquet
    table rewritten from it) equals the number of features the sample call
    returned, and the success message, the last thing the save does, reports
    that number. And the save of either tool does complete, with that
    message, whenever a record can be built for every feature returned and
    the table of the list can be built and typed. *)
Theorem saved_count_is_feature_count a caption w :
  (∀ answer w',
     perform a caption answer w = (Ok (), w') →
     ∃ feats new t,
       answer = Ok feats ∧
       records w' = records w ++ new ∧
       length new = length feats ∧
       json_file w' = Array (records w ++ new) ∧
       parquet_file w' = Some t ∧
       length t = length (records w) + length feats ∧
       trace w' = trace w ++ [Sample (region a) SAMPLE_SCALE (num_pixels a);
                              DumpJson (records w ++ new);
                              WriteTable t;
                              Success (length feats) caption]) ∧
  (∀ feats t,
     Forall (buildable caption) feats →
     frame a (records w ++ built caption feats) = Ok t →
     to_arrow t = Ok () →
     ∃ w', perform a caption (Ok feats) w = (Ok (), w') ∧
           last (trace w') = Some (Success (length feats) caption)).
Proof.
  split.
  - intros answer w' H.
    apply perform_Ok in H as (feats & t & -> & Hloop & Ht & ->).
    exists feats, (built caption feats), t. simpl.
    pose proof (built_length _ _ Hloop) as Hlen.
    split_and!; try done.
    apply frame_rows in Ht as [-> _]. by rewrite length_app, Hlen.
  - intros feats t Hfeats Ht Harrow. eexists. split.
    + by apply perform_completes.
    + simpl. by rewrite last_app.
Qed.

(** C2: every record a save appends has an ['alphaearth'] field holding a
    list of exactly 64 values, one per band name; when the save completes
    there is one such record for every feature returned. *)
Theorem appended_embedding_has_64_values a caption answer w :
  ∃ new,
    records (perform a caption answer w).2 = records w ++ new ∧
    Forall (λ r, ∃ vals, r !! "alphaearth" = Some (List vals) ∧
                         length vals = 64) new ∧
    ∀ feats, answer = Ok feats → (perform a caption answer w).1 = Ok () →
             length new = length feats.
Proof.
  destruct (perform_records a caption answer w) as (new & Hrec & Hnew).
  exists new. split; [done|]. split.
  - assert (Hb : Forall (λ r, ∃ props lon lat,
                           r = record_of caption props lon lat) new).
    { destruct Hnew as [(feats & _ & ->)| ->]; [apply built_records|done]. }
    eapply Forall_impl; [exact Hb|]. intros r (props & lon & lat & ->).
    eexists. split; [apply record_of_alphaearth|].
    by rewrite length_fmap, band_names_length.
  - intros feats -> Hok.
    destruct (perform a caption (Ok feats) w) as [[[]|e] w'] eqn:Hrun; [|done].
    apply perform_Ok in Hrun as (feats' & t & [= <-] & Hloop & _ & ->).
    simpl in Hrec. apply app_inv_head in Hrec as <-.
    by apply built_length.
Qed.

(** C3: after every save that completes, the JSON file holds the [records]
    list and the parquet file holds a table built from the same list: one
    row per record, in the same order, each row carrying the fields of its
    record; when the records are the tools' own, the table is that list.
    And on records of the tools' own the save of either tool does complete,
    leaving that one list in both files, whenever a record can be built for
    every feature returned and the list can be typed as a table. *)
Theorem files_rewritten_from_same_records a caption w :
  (∀ answer w',
     perform a caption answer w = (Ok (), w') →
     json_file w' = Array (records w') ∧
     ∃ t, parquet_file w' = Some t ∧
          length t = length (records w') ∧
          (∀ i r, records w' !! i = Some r →
             ∃ row, t !! i = Some row ∧
                    ∀ k v, k ∈ fields → r !! k = Some v →
                           row !! k = Some v) ∧
          (Forall tool_written (records w) → t = records w')) ∧
  (∀ feats,
     Forall (buildable caption) feats →
     Forall tool_written (records w) →
     to_arrow (records w ++ built caption feats) = Ok () →
     ∃ w', perform a caption (Ok feats) w = (Ok (), w') ∧
           json_file w' = Array (records w ++ built caption feats) ∧
           parquet_file w' = Some (records w ++ built caption feats)).
Proof.
  assert (Hall : ∀ feats, Forall tool_written (records w) →
            Forall tool_written (records w ++ built caption feats)).
  { intros feats Hold. apply Forall_app. split; [done|].
    eapply Forall_impl; [apply built_records|].
    intros r (props & lon & lat & ->). apply record_of_fields. }
  split.
  - intros answer w' H.
    apply perform_Ok in H as (feats & t & -> & Hloop & Ht & ->).
    simpl. split; [done|]. exists t.
    destruct (frame_rows _ _ _ Ht) as [Hlen Hrows].
    split_and!; try done.
    intros Hold. rewrite (frame_tool_written _ _ (Hall feats Hold)) in Ht.
    congruence.
  - intros feats Hfeats Hold Harrow. eexists. split.
    + apply perform_completes; [done| |done].
      by apply frame_tool_written, Hall.
    + done.
Qed.


(** ** What the other operations leave alone *)

Lemma next_sample_dataset draws w :
  records (next_sample draws w).2 = records w ∧
  json_file (next_sample draws w).2 = json_file w ∧
  parquet_file (next_sample draws w).2 = parquet_file w.
Proof.
  unfold next_sample, get_random_valid_point. run_M.
  destruct (random_point_loop_trace draws 0 max_tries w) as (evs & Hw & _).
  destruct (random_point_loop draws 0 max_tries w) as [[c|e] w'];
    simpl in *; by subst w'.
Qed.

Lemma show_thumbnail_dataset square attempts draws w :
  records (show_thumbnail square attempts draws w).2 = records w ∧
  json_file (show_thumbnail square attempts draws w).2 = json_file w ∧
  parquet_file (show_thumbnail square attempts draws w).2 = parquet_file w.
Proof.
  unfold show_thumbnail, fetch_valid_thumbnail. run_M.
  destruct (thumbnail_loop_spec square timeout attempts 0 tries w)
    as (evs & [url img] & -> & _).
  assert (Hnext := next_sample_dataset draws
    (logs [Warning "Could not load image (likely rate-limited). Retrying automatically..."]
          (logs [Sleep spinner_pause] (logs evs w)))).
  destruct img as [[]| |]; simpl; try done.
Qed.

Lemma perform_json_file a caption answer w :
  json_file (perform a caption answer w).2 = json_file w ∨
  json_file (perform a caption answer w).2
  = Array (records (perform a caption answer w).2).
Proof.
  rewrite perform_spec. cbv zeta.
  destruct answer as [feats|e]; simpl; [|by left].
  destruct (loop_outcome caption feats) as [[]|e]; simpl; [|by left].
  destruct (frame a _) as [t|e]; simpl; [|by right].
  destruct (to_arrow t) as [[]|e]; simpl; by right.
Qed.

(** C4: records are append-only. A save action, whatever its outcome,
    leaves the records accumulated so far where they were and only adds
    records after them; a run that starts from a readable JSON array leaves
    that array as a prefix of the file; and the other operations of the
    sampler (a submit with its caption guard and its next random point, a
    skip, the thumbnail stage) change neither the list nor the files except
    through such a save. *)
Theorem records_are_append_only :
  (∀ a caption answer w,
     ∃ new, records (perform a caption answer w).2 = records w ++ new) ∧
  (∀ a caption answer w l,
     json_file w = Array l →
     ∃ new, json_file (run a caption answer w).2 = Array (l ++ new)) ∧
  (∀ square caption answer draws w,
     ∃ new, records (submit square caption answer draws w).2
            = records w ++ new) ∧
  (∀ draws w,
     records (skip draws w).2 = records w ∧
     json_file (skip draws w).2 = json_file w ∧
     parquet_file (skip draws w).2 = parquet_file w) ∧
  (∀ square attempts draws w,
     records (show_thumbnail square attempts draws w).2 = records w ∧
     json_file (show_thumbnail square attempts draws w).2 = json_file w ∧
     parquet_file (show_thumbnail square attempts draws w).2
     = parquet_file w).
Proof.
  split_and!.
  - intros a caption answer w.
    destruct (perform_records a caption answer w) as (new & H & _). eauto.
  - intros a caption answer w l Hl. unfold run, load_records. run_M.
    rewrite Hl.
    destruct (perform_records a caption answer (set_records l w))
      as (new & Hrec & _).
    destruct (perform_json_file a caption answer (set_records l w))
      as [Hj|Hj]; rewrite Hj.
    + exists []. simpl. by rewrite Hl, app_nil_r.
    + exists new. by rewrite Hrec.
  - intros square caption answer draws w. unfold submit.
    destruct (truthy (strip caption)).
    + run_M.
      destruct (perform_records (SentinelSubmit square) caption answer w)
        as (new & Hrec & _). simpl in Hrec.
      destruct (save_submission square caption answer w) as [[[]|e] w'];
        simpl in *; [|eauto].
      exists new. by destruct (next_sample_dataset draws w') as (-> & _).
    + exists []. by rewrite app_nil_r.
  - intros draws w. apply next_sample_dataset.
  - intros. apply show_thumbnail_dataset.
Qed.

(** The rows of both files after a run that completes. *)
Lemma run_rows a caption feats w w' :
  run a caption (Ok feats) w = (Ok (), w') →
  json_file w' = Array (records w') ∧
  json_rows w' = length (records w') ∧
  parquet_rows w' = length (records w') ∧
  length (records w') = json_rows w + length feats.
Proof.
  unfold run, load_records. run_M. intros H.
  apply perform_Ok in H as (feats' & t & [= <-] & Hloop & Ht & ->).
  unfold json_rows, parquet_rows. simpl.
  apply frame_rows in Ht as [-> _].
  pose proof (built_length _ _ Hloop) as Hlen.
  destruct (json_file w); simpl; rewrite ?length_app; split_and!;
    done || lia.
Qed.

(** C5, as amended: saving again with an identical feature set appends the
    same number of rows again. After the second save both files hold the
    rows they held after the first plus one row per feature, so the row
    count is unchanged exactly when the feature set is empty. *)
Theorem resave_appends_again a caption feats w w1 w2 :
  run a caption (Ok feats) w = (Ok (), w1) →
  run a caption (Ok feats) w1 = (Ok (), w2) →
  json_rows w2 = json_rows w1 + length feats ∧
  parquet_rows w2 = parquet_rows w1 + length feats ∧
  (json_rows w2 = json_rows w1 ↔ feats = []).
Proof.
  intros H1 H2.
  apply run_rows in H1 as (_ & Hj1 & Hp1 & _).
  apply run_rows in H2 as (_ & Hj2 & Hp2 & Hlen).
  split_and!; [lia|lia|].
  split.
  - intros Heq. apply length_zero_iff_nil. lia.
  - intros ->. simpl in *. lia.
Qed.


(** ** Stripping a caption *)

Lemma lstrip_decompose s :
  ∃ l, s = l ++ lstrip s ∧ Forall (λ c, isspace c = true) l.
Proof.
  induction s as [|c s (l & Hs & Hl)]; simpl.
  - by exists [].
  - destruct (isspace c) eqn:Hc.
    + exists (c :: l). split; [by rewrite <- app_comm_cons, <- Hs|].
      by constructor.
    + by exists [].
Qed.

Lemma lstrip_head s c : head (lstrip s) = Some c → isspace c = false.
Proof.
  induction s as [|c' s IH]; simpl; [done|].
  destruct (isspace c') eqn:Hc; [done|]. simpl. congruence.
Qed.

Lemma lstrip_blank s : Forall (λ c, isspace c = true) s → lstrip s = [].
Proof. induction 1 as [|c s Hc _ IH]; simpl; [done|]. by rewrite Hc. Qed.

Lemma rstrip_decompose s :
  ∃ r, s = rstrip s ++ r ∧ Forall (λ c, isspace c = true) r.
Proof.
  unfold rstrip.
  destruct (lstrip_decompose (reverse s)) as (l & Hs & Hl).
  exists (reverse l). split.
  - rewrite <- reverse_app, <- Hs. by rewrite reverse_involutive.
  - by apply Forall_reverse.
Qed.

Lemma rstrip_last s c : last (rstrip s) = Some c → isspace c = false.
Proof. unfold rstrip. rewrite last_reverse. apply lstrip_head. Qed.

Lemma strip_decompose s :
  ∃ l r, s = l ++ strip s ++ r ∧
         Forall (λ c, isspace c = true) l ∧
         Forall (λ c, isspace c = true) r.
Proof.
  destruct (lstrip_decompose s) as (l & Hs & Hl).
  destruct (rstrip_decompose (lstrip s)) as (r & Ht & Hr).
  exists l, r. unfold strip. by rewrite <- Ht.
Qed.

Lemma strip_head s c : head (strip s) = Some c → isspace c = false.
Proof.
  unfold strip. intros H.
  destruct (rstrip_decompose (lstrip s)) as (r & Ht & _).
  apply (lstrip_head s). rewrite Ht.
  destruct (rstrip (lstrip s)); simpl in *; done.
Qed.

Lemma strip_last s c : last (strip s) = Some c → isspace c = false.
Proof. apply rstrip_last. Qed.

Lemma strip_blank s : Forall (λ c, isspace c = true) s ↔ strip s = [].
Proof.
  split.
  - intros H. unfold strip. by rewrite (lstrip_blank s H).
  - intros H. destruct (strip_decompose s) as (l & r & Hs & Hl & Hr).
    rewrite Hs, H. simpl. by apply Forall_app.
Qed.

(** C8: in the Sentinel sampler a submit with an empty or whitespace-only
    caption changes no state: the list, both files and the session's
    current point stay as they were and the only thing that happens is the
    warning, so no sample call is made and no file is written. The click
    picker has no such guard: with the same caption its save makes the
    sample call, appends a record with the empty caption for every feature
    and writes them to the JSON file; it then ends as the conversion of the
    table ends, with the parquet file rewritten when that succeeds. *)
Theorem blank_caption_is_rejected_by_sampler_only caption :
  Forall (λ c, isspace c = true) caption →
  (∀ square answer draws w,
     ∃ w', submit square caption answer draws w = (Ok (), w') ∧
           records w' = records w ∧
           json_file w' = json_file w ∧
           parquet_file w' = parquet_file w ∧
           current w' = current w ∧
           trace w' = trace w ++ [Warning "Enter a caption before submitting."]) ∧
  (∀ lon lat feats w,
     Forall located feats →
     ∃ new,
       records (save_sample lon lat caption (Ok feats) w).2
       = records w ++ new ∧
       length new = length feats ∧
       Forall (λ r, r !! "caption" = Some (Str [])) new ∧
       json_file (save_sample lon lat caption (Ok feats) w).2
       = Array (records w ++ new) ∧
       (save_sample lon lat caption (Ok feats) w).1
       = to_arrow (DataFrame (records w ++ new)) ∧
       (to_arrow (DataFrame (records w ++ new)) = Ok () →
        parquet_file (save_sample lon lat caption (Ok feats) w).2
        = Some (DataFrame (records w ++ new)))).
Proof.
  intros Hblank. apply strip_blank in Hblank. split.
  - intros square answer draws w. unfold submit. rewrite Hblank. simpl.
    eexists. split; [done|]. done.
  - intros lon lat feats w Hfeats.
    pose proof (perform_spec (PickerSave lon lat) caption (Ok feats) w) as Hrun.
    cbv zeta in Hrun. simpl in Hrun.
    pose proof (loop_outcome_located caption feats Hfeats) as Hloop.
    rewrite Hloop in Hrun. rewrite Hrun.
    exists (built caption feats).
    assert (Hcap : Forall (λ r, r !! "caption" = Some (Str []))
                          (built caption feats)).
    { eapply Forall_impl; [apply built_records|].
      intros r (props & x & y & ->).
      by rewrite record_of_caption, Hblank. }
    pose proof (built_length _ _ Hloop) as Hlen.
    destruct (to_arrow (DataFrame (records w ++ built caption feats)))
      as [[]|e]; simpl; split_and!; done.
Qed.

(** C9: in every record a save appends, the caption field is the caption
    the user entered with its leading and trailing whitespace removed: it
    is the entered text without a whitespace-only prefix and suffix, and it
    neither starts nor ends with a whitespace character. *)
Theorem saved_caption_is_stripped a caption answer w :
  ∃ new,
    records (perform a caption answer w).2 = records w ++ new ∧
    Forall (λ r, r !! "caption" = Some (Str (strip caption))) new ∧
    (∃ l r, caption = l ++ strip caption ++ r ∧
            Forall (λ c, isspace c = true) l ∧
            Forall (λ c, isspace c = true) r) ∧
    (∀ c, head (strip caption) = Some c ∨ last (strip caption) = Some c →
          isspace c = false).
Proof.
  destruct (perform_records a caption answer w) as (new & Hrec & Hnew).
  exists new. split_and!; [done| |apply strip_decompose|].
  - assert (Hb : Forall (λ r, ∃ props lon lat,
                           r = record_of caption props lon lat) new).
    { destruct Hnew as [(feats & _ & ->)| ->]; [apply built_records|done]. }
    eapply Forall_impl; [exact Hb|]. intros r (props & lon & lat & ->).
    apply record_of_caption.
  - intros c [H|H]; [by eapply strip_head|by eapply strip_last].
Qed.




(** The thumbnail fetch never raises, whatever the service answers. *)
Lemma fetch_valid_thumbnail_never_raises square n to attempts w :
  ∃ r, (fetch_valid_thumbnail square n to attempts w).1 = Ok r.
Proof.
  unfold fetch_valid_thumbnail.
  destruct (thumbnail_loop_spec square to attempts 0 n w) as (evs & r & -> & _).
  by exists r.
Qed.



(** X21: across a whole session the parquet file is never ahead of the
    JSON file. Starting from an empty labels directory, after any number
    of save runs of either tool, whatever the service and the table
    conversion answer and however each run ends, the JSON array holds only
    records with exactly the six fields, and the parquet file is absent or
    holds the first rows of that array, in order; it holds all of them
    after a run that completes. *)
Lemma session_in_sync w :
  session w →
  in_sync w ∧
  ∀ a caption answer w',
    run a caption answer w = (Ok (), w') →
    ∃ l, json_file w' = Array l ∧ parquet_file w' = Some l.
Proof.
  intros Hs.
  assert (Hsync : in_sync w).
  { induction Hs as [|w a caption answer _ IH]; [done|].
    unfold run, load_records. run_M. rewrite perform_spec. cbv zeta.
    set (l := match json_file w with Array l => l | _ => [] end).
    assert (Hl : Forall tool_written l ∧
                 ∀ t, parquet_file w = Some t → t `prefix_of` l).
    { unfold in_sync in IH. subst l.
      destruct (json_file w), (parquet_file w); try done;
        destruct IH as [? ?]; split; try done. by intros t' [= <-]. }
    destruct Hl as [Hl Hpre].
    destruct answer as [feats|e]; simpl; [|exact IH].
    destruct (loop_outcome caption feats) as [[]|e]; simpl; [|exact IH].
    assert (Hall : Forall tool_written (l ++ built caption feats)).
    { apply Forall_app. split; [done|].
      eapply Forall_impl; [apply built_records|].
      intros r (props & lon & lat & ->). apply record_of_fields. }
    rewrite (frame_tool_written _ _ Hall).
    destruct (to_arrow _) as [[]|e]; unfold in_sync; simpl.
    - done.
    - destruct (parquet_file w) as [t|] eqn:Hp; [|done].
      split; [|done]. by apply prefix_app_r, Hpre. }
  split; [done|].
  intros a caption answer w'. unfold run, load_records. run_M. intros H.
  apply perform_Ok in H as (feats & t & -> & Hloop & Ht & ->). simpl in *.
  eexists. split; [done|]. f_equal.
  rewrite frame_tool_written in Ht; [congruence|].
  apply Forall_app. split.
  - unfold in_sync in Hsync.
    destruct (json_file w), (parquet_file w); try done; by destruct Hsync.
  - eapply Forall_impl; [apply built_records|].
    intros r (props & lon & lat & ->). apply record_of_fields.
Qed.


(** ** More about building records and saving *)

Lemma loop_outcome_buildable caption feats :
  Forall (buildable caption) feats → loop_outcome caption feats = Ok ().
Proof.
  intros Hall. induction Hall as [|f feats [r Hf] Hall IH]; simpl; [done|].
  by rewrite Hf.
Qed.

Lemma loop_outcome_app_raise caption good f rest e :
  loop_outcome caption good = Ok () →
  make_record caption f = Raise e →
  loop_outcome caption (good ++ f :: rest) = Raise e ∧
  built caption (good ++ f :: rest) = built caption good.
Proof.
  intros Hgood Hf. induction good as [|g good IH]; simpl in *.
  - by rewrite Hf.
  - destruct (make_record caption g); [|done].
    destruct (IH Hgood) as [-> ->]. done.
Qed.

(** X1: a record that is built has exactly the six fields; its [lon] and
    [lat] are entries 0 and 1 of the feature's own geometry coordinates
    (not the clicked or drawn point), and its [thumb_m] and [sample_scale]
    are the sidebar parameters of the run. *)
Theorem record_fields_come_from_feature_and_sidebar caption f r :
  make_record caption f = Ok r →
  dom r = fields ∧
  r !! "thumb_m" = Some (Int THUMB_METERS) ∧
  r !! "sample_scale" = Some (Int SAMPLE_SCALE) ∧
  ∃ g c lon lat,
    getitem f "geometry" = Ok g ∧ getitem g "coordinates" = Ok c ∧
    index c 0 = Ok lon ∧ index c 1 = Ok lat ∧
    r !! "lon" = Some lon ∧ r !! "lat" = Some lat.
Proof.
  intros H.
  destruct (make_record_inv _ _ _ H) as (props & lon0 & lat0 & Hprops & Hr).
  split; [rewrite Hr; apply record_of_fields|].
  unfold make_record in H.
  rewrite (bands_of_properties _ _ Hprops) in H. run_res.
  destruct (getitem f "geometry") as [g|] eqn:Hg; [|done].
  destruct (getitem g "coordinates") as [c|] eqn:Hc; [|done].
  destruct (index c 0) as [lon|] eqn:Hlon; [|done].
  destruct (index c 1) as [lat|] eqn:Hlat; [|done].
  injection H as <-. split_and!; [by simplify_map_eq..|].
  exists g, c, lon, lat. split_and!; try done; by simplify_map_eq.
Qed.

(** X2: the order in which a malformed feature is detected. A feature
    whose ["properties"] cannot be read fails with that error whatever its
    geometry; properties that are not a dictionary (such as null) fail with
    [AttributeError]; with a property dictionary, a missing geometry or
    coordinate list fails with the error of that lookup, and a coordinate
    list without entry 0 or entry 1 with the error of that index. *)
Theorem malformed_feature_errors caption f :
  (∀ e, getitem f "properties" = Raise e → make_record caption f = Raise e) ∧
  (∀ p, getitem f "properties" = Ok p → (∀ d, p ≠ Dict d) →
        make_record caption f = Raise AttributeError) ∧
  (∀ props e, properties_of f = Some props →
     getitem f "geometry" = Raise e → make_record caption f = Raise e) ∧
  (∀ props g e, properties_of f = Some props →
     getitem f "geometry" = Ok g → getitem g "coordinates" = Raise e →
     make_record caption f = Raise e) ∧
  (∀ props g c e, properties_of f = Some props →
     getitem f "geometry" = Ok g → getitem g "coordinates" = Ok c →
     index c 0 = Raise e ∨ (∃ lon, index c 0 = Ok lon) ∧ index c 1 = Raise e →
     make_record caption f = Raise e).
Proof.
  split_and!.
  - intros e He. unfold make_record. rewrite band_names_head. simpl.
    run_res. by rewrite He.
  - intros p Hp Hnd. unfold make_record. rewrite band_names_head. simpl.
    run_res. rewrite Hp. destruct p; simpl; try done. by destruct (Hnd d).
  - intros props e Hprops Hg. unfold make_record.
    rewrite (bands_of_properties _ _ Hprops). run_res. by rewrite Hg.
  - intros props g e Hprops Hg Hc. unfold make_record.
    rewrite (bands_of_properties _ _ Hprops). run_res. by rewrite Hg, Hc.
  - intros props g c e Hprops Hg Hc Hi. unfold make_record.
    rewrite (bands_of_properties _ _ Hprops). run_res. rewrite Hg, Hc.
    destruct Hi as [->|[[lon ->] ->]]; done.
Qed.

(** X3: the first feature whose record cannot be built ends the save. The
    records of the features before it have been appended to the list in
    memory, the features after it are never looked at, its exception leaves
    the handler, and nothing has been written: both files are as before
    and no success message is shown. *)
Theorem first_bad_feature_ends_the_save a caption good f rest e w :
  Forall (buildable caption) good →
  make_record caption f = Raise e →
  perform a caption (Ok (good ++ f :: rest)) w
  = (Raise e,
     set_records (records w ++ built caption good)
       (log (Sample (region a) SAMPLE_SCALE (num_pixels a)) w)) ∧
  length (built caption good) = length good.
Proof.
  intros Hgood Hf. apply loop_outcome_buildable in Hgood.
  destruct (loop_outcome_app_raise caption good f rest e Hgood Hf) as [Ho Hb].
  rewrite perform_spec. cbv zeta. rewrite Ho, Hb.
  split; [done|]. by apply built_length.
Qed.

(** X4: the picker's save ends in one of three ways, and the parquet
    file is never written without the JSON file. Either it completes, and
    both files have been rewritten from the list in memory; or it raises
    before any write (the sample call failed, or a record could not be
    built), and both files are exactly as they were; or the conversion of
    the table raises after [json.dump], and then the JSON file holds the
    whole list while the parquet file is the old one. *)
Theorem picker_save_writes_json_before_parquet lon lat caption answer w :
  ((save_sample lon lat caption answer w).1 = Ok () ∧
   json_file (save_sample lon lat caption answer w).2
   = Array (records (save_sample lon lat caption answer w).2) ∧
   parquet_file (save_sample lon lat caption answer w).2
   = Some (DataFrame (records (save_sample lon lat caption answer w).2))) ∨
  ((∃ e, (save_sample lon lat caption answer w).1 = Raise e) ∧
   json_file (save_sample lon lat caption answer w).2 = json_file w ∧
   parquet_file (save_sample lon lat caption answer w).2 = parquet_file w) ∨
  ((∃ e, (save_sample lon lat caption answer w).1 = Raise e ∧
         to_arrow (DataFrame (records (save_sample lon lat caption answer w).2))
         = Raise e) ∧
   json_file (save_sample lon lat caption answer w).2
   = Array (records (save_sample lon lat caption answer w).2) ∧
   parquet_file (save_sample lon lat caption answer w).2 = parquet_file w).
Proof.
  pose proof (perform_spec (PickerSave lon lat) caption answer w) as H.
  cbv zeta in H. simpl perform in H. rewrite H. clear H.
  destruct answer as [feats|e]; simpl; [|right; left; eauto].
  destruct (loop_outcome caption feats) as [[]|e]; simpl;
    [|right; left; eauto].
  destruct (to_arrow (DataFrame (records w ++ built caption feats)))
    as [[]|e] eqn:Harrow; simpl; [by left|].
  right; right. split_and!; try done. by exists e.
Qed.


Lemma comprehension_raise {A B} (f : A → res B) (Q : exn → Prop) xs :
  Forall (λ x, ∀ e, f x = Raise e → Q e) xs →
  Exists (λ x, ∃ e, f x = Raise e) xs →
  ∃ e, comprehension f xs = Raise e ∧ Q e.
Proof.
  intros Hall Hex. induction Hex as [x xs [e He]|x xs Hex IH]; simpl; run_res.
  - rewrite He. exists e. split; [done|].
    apply Forall_cons in Hall as [Hx _]. by apply Hx.
  - apply Forall_cons in Hall as [Hx Hall].
    destruct (f x) as [y|e] eqn:Hfx; [|exists e; split; [done|by apply Hx]].
    destruct (IH Hall) as (e & -> & HQ). by exists e.
Qed.

Lemma parquet_row_raise r e :
  parquet_row r = Raise e → ∃ k, k ∈ fields ∧ e = KeyError (inl k).
Proof.
  unfold parquet_row, getitem, fields. run_res.
  destruct (r !! "lon"); [|intros [= <-]; eexists; split; [|done]; set_solver].
  destruct (r !! "lat"); [|intros [= <-]; eexists; split; [|done]; set_solver].
  destruct (r !! "caption");
    [|intros [= <-]; eexists; split; [|done]; set_solver].
  destruct (r !! "thumb_m");
    [|intros [= <-]; eexists; split; [|done]; set_solver].
  destruct (r !! "sample_scale");
    [|intros [= <-]; eexists; split; [|done]; set_solver].
  destruct (r !! "alphaearth");
    [|intros [= <-]; eexists; split; [|done]; set_solver].
  done.
Qed.

Lemma parquet_row_needs_fields r :
  ¬ fields ⊆ dom r → ∃ e, parquet_row r = Raise e.
Proof.
  intros Hmiss. destruct (parquet_row r) as [row|e] eqn:Hrow; [|eauto].
  destruct Hmiss. destruct (parquet_row_inv _ _ Hrow) as [Hdom Hsub].
  intros k Hk. rewrite <- Hdom in Hk. apply elem_of_dom in Hk as [v Hv].
  apply elem_of_dom. eauto.
Qed.

(** X5: in the sampler a record without one of the six fields (a JSON file
    edited by hand or written by another tool) makes [save_parquet] raise
    [KeyError] for a field name after the JSON file has been rewritten: the
    JSON file holds the old and the new records, the parquet file is the
    old one, and no success message is shown. *)
Theorem sampler_save_can_stop_between_the_files square caption feats w :
  Forall (buildable caption) feats →
  Exists (λ r, ¬ fields ⊆ dom r) (records w) →
  ∃ k,
    k ∈ fields ∧
    save_submission square caption (Ok feats) w
    = (Raise (KeyError (inl k)),
       World (records w ++ built caption feats)
             (Array (records w ++ built caption feats))
             (parquet_file w) (current w)
             (trace w ++ [Sample square SAMPLE_SCALE (Some 100%Z);
                          DumpJson (records w ++ built caption feats)])).
Proof.
  intros Hfeats Hold. apply loop_outcome_buildable in Hfeats.
  pose proof (perform_spec (SentinelSubmit square) caption (Ok feats) w) as H.
  cbv zeta in H. simpl perform in H. rewrite H, Hfeats. clear H. simpl.
  destruct (comprehension_raise parquet_row
              (λ e, ∃ k, k ∈ fields ∧ e = KeyError (inl k))
              (records w ++ built caption feats)) as (e & -> & k & Hk & ->).
  - apply Forall_forall. intros r _ e. apply parquet_row_raise.
  - apply Exists_app. left.
    eapply Exists_impl; [exact Hold|]. intros r. apply parquet_row_needs_fields.
  - exists k. split; [done|].
    unfold log, set_json_file, set_records. simpl. by rewrite <- app_assoc.
Qed.

(** X6: a JSON file that is missing or cannot be parsed starts the dataset
    over. The run begins with an empty list, so a save that completes
    rewrites both files with the records of this save alone: whatever rows
    the parquet file held before are gone. *)
Theorem unreadable_json_starts_the_dataset_over a caption feats w w' :
  json_file w = Missing ∨ json_file w = Unreadable →
  run a caption (Ok feats) w = (Ok (), w') →
  records w' = built caption feats ∧
  json_file w' = Array (built caption feats) ∧
  json_rows w' = length feats ∧
  parquet_rows w' = length feats.
Proof.
  intros Hj. unfold run, load_records. run_M. intros H.
  apply perform_Ok in H as (feats' & t & [= <-] & Hloop & Ht & ->).
  unfold json_rows, parquet_rows. simpl.
  apply frame_rows in Ht as [-> _]. simpl.
  pose proof (built_length _ _ Hloop) as Hlen.
  destruct Hj as [-> | ->]; simpl; by rewrite ?Hlen.
Qed.

(** X7: the sampler's parquet table keeps only the six columns. After a
    save that completes, every row has exactly the six fields with the
    values its record has for them, in the order of the records; any other
    key of a record stays in the JSON file and is dropped from the table. *)
Theorem sampler_table_has_the_six_columns square caption answer w w' :
  save_submission square caption answer w = (Ok (), w') →
  json_file w' = Array (records w') ∧
  ∃ t, parquet_file w' = Some t ∧
       Forall2 (λ r row, dom row = fields ∧
                         ∀ k, k ∈ fields → row !! k = r !! k)
               (records w') t.
Proof.
  intros H.
  apply (perform_Ok (SentinelSubmit square)) in H
    as (feats & t & -> & Hloop & Ht & ->).
  simpl. split; [done|]. exists t. split; [done|].
  simpl in Ht. apply comprehension_Forall2 in Ht.
  eapply Forall2_impl; [exact Ht|]. intros r row Hrow. simpl in Hrow.
  destruct (parquet_row_inv _ _ Hrow) as [Hdom Hsub]. split; [done|].
  intros k Hk. rewrite <- Hdom in Hk. apply elem_of_dom in Hk as [v Hv].
  rewrite Hv. symmetry. by apply Hsub.
Qed.


(** ** More about the random-point search *)

Lemma draws_made_S draws i n :
  draws_made draws i (S n)
  = Randint (seed (draws i)) :: draws_made draws (S i) n.
Proof. done. Qed.

Lemma random_point_loop_first_covered draws k : ∀ i n w lon lat v,
  k < n →
  (∀ j, i ≤ j < i + k → no_coverage (draws j)) →
  coordinates (draws (i + k)) = Ok [lon; lat] →
  mean_B4 (draws (i + k)) = Ok v → v ≠ None_ →
  random_point_loop draws i n w
  = (Ok (point_at (seed (draws (i + k))) lon lat THUMB_METERS),
     logs (draws_made draws i (S k)) w).
Proof.
  induction k as [|k IH]; intros i n w lon lat v Hk Hno Hc Hv Hv0;
    (destruct n as [|n]; [lia|]); simpl.
  - rewrite Nat.add_0_r in *. run_M. run_res. rewrite Hc, Hv. simpl.
    rewrite log_logs. by destruct v.
  - destruct (Hno i) as [(x & y & Hx) Hy]; [lia|].
    run_M. run_res. rewrite Hx, Hy. simpl. rewrite log_logs.
    replace (i + S k) with (S i + k) in * by lia.
    rewrite (IH (S i) n _ lon lat v); try done; try lia.
    + by rewrite logs_logs.
    + intros j Hj. apply Hno. lia.
Qed.

Lemma random_point_loop_raise draws k : ∀ i n w e,
  k < n →
  (∀ j, i ≤ j < i + k → no_coverage (draws j)) →
  draw_raises (draws (i + k)) e →
  random_point_loop draws i n w
  = (Raise e, logs (draws_made draws i (S k)) w).
Proof.
  induction k as [|k IH]; intros i n w e Hk Hno He;
    (destruct n as [|n]; [lia|]); simpl.
  - rewrite Nat.add_0_r in *. unfold draw_raises in He.
    run_M. run_res. rewrite log_logs.
    destruct (coordinates (draws i)) as [xs|e1]; simpl in *.
    + destruct (unpack2 xs) as [[lon lat]|e2]; simpl.
      * destruct He as [He|[_ He]]; [done|]. by rewrite He.
      * destruct He as [He|[[p Hp] _]]; by simplify_eq.
    + destruct He as [He|[[p Hp] _]]; by simplify_eq.
  - destruct (Hno i) as [(x & y & Hx) Hy]; [lia|].
    run_M. run_res. rewrite Hx, Hy. simpl. rewrite log_logs.
    replace (i + S k) with (S i + k) in * by lia.
    rewrite (IH (S i) n _ e); try done; try lia.
    + by rewrite logs_logs.
    + intros j Hj. apply Hno. lia.
Qed.

Lemma random_point_loop_shape draws n : ∀ i w c w',
  random_point_loop draws i n w = (Ok c, w') →
  c = no_point ∨ ∃ s lon lat, c = point_at s lon lat THUMB_METERS.
Proof.
  induction n as [|n IH]; intros i w c w'; simpl.
  - intros [= <- _]. by left.
  - run_M. run_res.
    destruct (coordinates (draws i)) as [xs|]; simpl; [|done].
    destruct (unpack2 xs) as [[lon lat]|]; simpl; [|done].
    destruct (mean_B4 (draws i)) as [v|]; simpl; [|done].
    destruct v; try (intros [= <- _]; right; by eexists _, _, _).
    apply IH.
Qed.

(** X8: the random-point search returns the first draw that has coverage.
    When the draws before draw [k] (with [k < 6]) have none and draw [k]
    has a coverage value, the result is the point of draw [k], its
    coordinates as the service gave them, and the bounds of the buffer of
    [THUMB_METERS] around that very point; exactly [k + 1] draws are made. *)
Theorem random_point_search_returns_first_covered_draw
    draws k lon lat v w :
  k < max_tries →
  (∀ j, j < k → no_coverage (draws j)) →
  coordinates (draws k) = Ok [lon; lat] →
  mean_B4 (draws k) = Ok v → v ≠ None_ →
  get_random_valid_point max_tries draws w
  = (Ok (point_at (seed (draws k)) lon lat THUMB_METERS),
     logs (draws_made draws 0 (S k)) w) ∧
  count is_draw (draws_made draws 0 (S k)) = S k.
Proof.
  intros Hk Hno Hc Hv Hv0. split.
  - unfold get_random_valid_point.
    apply (random_point_loop_first_covered draws k 0 max_tries w lon lat v);
      try done.
    intros j Hj. apply Hno. lia.
  - unfold draws_made. by rewrite count_draws_fmap, length_seq.
Qed.

(** X9: whatever the number of tries and the answers, a result of the
    search is either [(None, None, None, None)] or a complete tuple: a
    point, two coordinate values, and the buffer bounds of that same point.
    So [pt is None], the only test the script makes, decides the others. *)
Theorem random_point_result_is_all_or_nothing draws n w c w' :
  get_random_valid_point n draws w = (Ok c, w') →
  c = no_point ∨ ∃ s lon lat, c = point_at s lon lat THUMB_METERS.
Proof. unfold get_random_valid_point. apply random_point_loop_shape. Qed.

(** X10: the search does not retry an exception. When the draws before
    draw [k] (with [k < 6]) have no coverage and the service raises during
    draw [k], or answers it with coordinates that are not a pair, that
    exception leaves the function after exactly [k + 1] draws. *)
Theorem random_point_search_stops_at_first_exception draws k e w :
  k < max_tries →
  (∀ j, j < k → no_coverage (draws j)) →
  draw_raises (draws k) e →
  get_random_valid_point max_tries draws w
  = (Raise e, logs (draws_made draws 0 (S k)) w) ∧
  count is_draw (draws_made draws 0 (S k)) = S k.
Proof.
  intros Hk Hno He. split.
  - unfold get_random_valid_point.
    apply (random_point_loop_raise draws k 0 max_tries w e); try done.
    intros j Hj. apply Hno. lia.
  - unfold draws_made. by rewrite count_draws_fmap, length_seq.
Qed.


(** ** More about the thumbnail fetch *)

Lemma fetch_once_cases square to a w :
  ∃ evs,
    (fetch_once square to a w).2 = logs evs w ∧
    count is_attempt evs = 1 ∧ count is_sleep evs = 0 ∧
    match (fetch_once square to a w).1 with
    | Raise _ => raises a = true ∧ loads a = false
    | Ok None => raises a = false ∧ loads a = false
    | Ok (Some found) =>
        raises a = false ∧ loads a = true ∧
        ∃ url content,
          thumb_url a = Ok url ∧ response a = Ok (200%Z, content) ∧
          (10000 < Z.of_nat (length content))%Z ∧
          found = (OVal (Str url), OImage (Image content))
    end.
Proof.
  unfold fetch_once, loads, raises. run_M. rewrite !log_logs.
  destruct (thumb_url a) as [url|e]; simpl.
  2: { eexists. split; [done|]. by split_and!. }
  rewrite ?log_logs, ?logs_logs.
  destruct (response a) as [[status_code content]|e]; simpl.
  2: { eexists. split; [done|]. by split_and!. }
  destruct ((status_code =? 200)%Z && (10000 <? Z.of_nat (length content))%Z)
    eqn:Hcond; simpl.
  2: { eexists. split; [done|]. split_and!; try done; by destruct (pil_open a). }
  apply andb_prop in Hcond as [H200%Z.eqb_eq Hlen%Z.ltb_lt]. subst status_code.
  destruct (pil_open a) as [[]|e]; simpl;
    eexists; (split; [done|]); split_and!; try done.
  by exists url, content.
Qed.

Lemma thumbnail_loop_first_loading square to attempts k : ∀ i n w,
  k < n →
  (∀ j, i ≤ j < i + k → loads (attempts j) = false) →
  loads (attempts (i + k)) = true →
  ∃ url content evs,
    thumb_url (attempts (i + k)) = Ok url ∧
    response (attempts (i + k)) = Ok (200%Z, content) ∧
    thumbnail_loop square to attempts i n w
    = (Ok (OVal (Str url), OImage (Image content)), logs evs w) ∧
    count is_attempt evs = S k.
Proof.
  induction k as [|k IH]; intros i n w Hk Hno Hload;
    (destruct n as [|n]; [lia|]); simpl;
    destruct (fetch_once_cases square to (attempts i) w)
      as (evs1 & Hw & Hatt & Hsl & Hr);
    run_M;
    destruct (fetch_once square to (attempts i) w) as [r1 w1];
    simpl in Hw, Hr; subst w1.
  - rewrite Nat.add_0_r in *.
    destruct r1 as [[found|]|e]; [|destruct Hr; congruence..].
    destruct Hr as (_ & _ & url & content & Hu & Hresp & _ & ->).
    by exists url, content, evs1.
  - assert (Hi : loads (attempts i) = false) by (apply Hno; lia).
    replace (i + S k) with (S i + k) in * by lia.
    destruct r1 as [[found|]|e].
    + destruct Hr as (_ & ? & _). congruence.
    + destruct (IH (S i) n (logs evs1 w))
        as (url & content & evs & Hu & Hresp & -> & Hn); try done; try lia.
      { intros j Hj. apply Hno. lia. }
      exists url, content, (evs1 ++ evs). rewrite logs_logs, count_app.
      split_and!; try done. lia.
    + rewrite log_logs.
      destruct (IH (S i) n (logs [Sleep 0.5] (logs evs1 w)))
        as (url & content & evs & Hu & Hresp & -> & Hn); try done; try lia.
      { intros j Hj. apply Hno. lia. }
      exists url, content, (evs1 ++ [Sleep 0.5] ++ evs).
      rewrite !logs_logs, !count_app, count_cons, count_nil.
      split_and!; try done; try (by rewrite <- ?app_assoc); simpl; lia.
Qed.

Lemma thumbnail_loop_sleeps square to attempts n : ∀ i w,
  ∃ evs r,
    thumbnail_loop square to attempts i n w = (Ok r, logs evs w) ∧
    count is_attempt evs ≤ n ∧
    count is_sleep evs
    = length (filter (λ j, raises (attempts j) = true)
                     (seq i (count is_attempt evs))).
Proof.
  induction n as [|n IH]; intros i w; simpl.
  - exists [], (ONone, ONone). by rewrite logs_nil.
  - destruct (fetch_once_cases square to (attempts i) w)
      as (evs1 & Hw & Hatt & Hsl & Hr).
    run_M. destruct (fetch_once square to (attempts i) w) as [r1 w1].
    simpl in Hw, Hr. subst w1.
    destruct r1 as [[found|]|e].
    + exists evs1, found. rewrite Hatt, Hsl. simpl.
      destruct Hr as (Hr & _). rewrite filter_cons, decide_False; [|congruence].
      split_and!; try done. lia.
    + destruct (IH (S i) (logs evs1 w)) as (evs & r & -> & Hn & Hs).
      exists (evs1 ++ evs), r. rewrite logs_logs, !count_app, Hatt, Hsl, Hs.
      simpl. destruct Hr as (Hr & _).
      rewrite filter_cons, decide_False; [|congruence].
      split_and!; try done. lia.
    + rewrite log_logs.
      destruct (IH (S i) (logs [Sleep 0.5] (logs evs1 w)))
        as (evs & r & -> & Hn & Hs).
      exists (evs1 ++ [Sleep 0.5] ++ evs), r.
      rewrite !logs_logs, !count_app, !count_cons, !count_nil, Hatt, Hsl, Hs.
      simpl. destruct Hr as (Hr & _).
      rewrite filter_cons, decide_True; [|done].
      split_and!; [by rewrite <- ?app_assoc|lia|done].
Qed.

Lemma thumbnail_loop_shape square to attempts n : ∀ i w url img w',
  thumbnail_loop square to attempts i n w = (Ok (url, img), w') →
  (url = ONone ∧ img = ONone ∧
   ∀ j, i ≤ j < i + n → loads (attempts j) = false) ∨
  ∃ k u content,
    i ≤ k < i + n ∧ loads (attempts k) = true ∧
    thumb_url (attempts k) = Ok u ∧
    response (attempts k) = Ok (200%Z, content) ∧
    (10000 < Z.of_nat (length content))%Z ∧
    url = OVal (Str u) ∧ img = OImage (Image content).
Proof.
  induction n as [|n IH]; intros i w url img w'; simpl.
  - intros [= <- <- _]. left. split_and!; try done. intros j Hj. lia.
  - destruct (fetch_once_cases square to (attempts i) w)
      as (evs1 & Hw & _ & _ & Hr).
    run_M. destruct (fetch_once square to (attempts i) w) as [r1 w1].
    simpl in Hw, Hr. subst w1.
    assert (Hnext : ∀ w1,
      thumbnail_loop square to attempts (S i) n w1 = (Ok (url, img), w') →
      loads (attempts i) = false →
      (url = ONone ∧ img = ONone ∧
       ∀ j, i ≤ j < i + S n → loads (attempts j) = false) ∨
      ∃ k u content,
        i ≤ k < i + S n ∧ loads (attempts k) = true ∧
        thumb_url (attempts k) = Ok u ∧
        response (attempts k) = Ok (200%Z, content) ∧
        (10000 < Z.of_nat (length content))%Z ∧
        url = OVal (Str u) ∧ img = OImage (Image content)).
    { intros w1 Hrun Hi. apply IH in Hrun as [(-> & -> & Hno)|Hyes].
      - left. split_and!; try done. intros j Hj.
        destruct (decide (j = i)) as [->|]; [done|]. apply Hno. lia.
      - right. destruct Hyes as (k & u & content & Hk & Hrest).
        exists k, u, content. split; [lia|done]. }
    destruct r1 as [[found|]|e].
    + intros [= -> _]. right.
      destruct Hr as (_ & Hl & u & content & Hu & Hresp & Hlen & [= -> ->]).
      exists i, u, content. split_and!; try done; lia.
    + intros Hrun. destruct Hr as [_ Hl]. by eapply Hnext.
    + intros Hrun. destruct Hr as [_ Hl]. by eapply Hnext.
Qed.

(** X11: the thumbnail fetch returns the first attempt that loads. When
    the attempts before attempt [k] (with [k < 4]) fail and attempt [k]
    gets a URL, a 200 response of more than 10000 bytes and bytes that open
    as an image, the result is that URL with the image of those bytes,
    after exactly [k + 1] attempts. *)
Theorem thumbnail_fetch_returns_first_loading_attempt
    square attempts k w :
  k < tries →
  (∀ j, j < k → loads (attempts j) = false) →
  loads (attempts k) = true →
  ∃ url content evs,
    thumb_url (attempts k) = Ok url ∧
    response (attempts k) = Ok (200%Z, content) ∧
    fetch_valid_thumbnail square tries timeout attempts w
    = (Ok (OVal (Str url), OImage (Image content)), logs evs w) ∧
    count is_attempt evs = S k.
Proof.
  intros Hk Hno Hload. unfold fetch_valid_thumbnail.
  apply (thumbnail_loop_first_loading square timeout attempts k 0 tries w);
    try done.
  intros j Hj. apply Hno. lia.
Qed.

(** X12: the fetch sleeps only after an attempt that raised. For any
    number of tries it returns without raising, and the number of its
    0.5 second sleeps is the number of attempts made in which a call raised
    (no URL, a failed request, bytes that do not open). An attempt answered
    with another status than 200, or with 10000 bytes or fewer, is followed
    by the next attempt at once. *)
Theorem thumbnail_fetch_sleeps_only_after_exceptions
    square n to attempts w :
  ∃ evs r,
    fetch_valid_thumbnail square n to attempts w = (Ok r, logs evs w) ∧
    count is_attempt evs ≤ n ∧
    count is_sleep evs
    = length (filter (λ j, raises (attempts j) = true)
                     (seq 0 (count is_attempt evs))).
Proof. unfold fetch_valid_thumbnail. apply thumbnail_loop_sleeps. Qed.

(** X13: a result of the fetch is either [(None, None)], and then every
    attempt failed, or a URL with an image, and then they are the URL and
    the bytes of one attempt that got a 200 response of more than 10000
    bytes. So [img is None], the only test the script makes, also decides
    the URL. *)
Theorem thumbnail_result_is_none_or_a_loaded_image
    square n to attempts w url img w' :
  fetch_valid_thumbnail square n to attempts w = (Ok (url, img), w') →
  (url = ONone ∧ img = ONone ∧ ∀ j, j < n → loads (attempts j) = false) ∨
  ∃ k u content,
    k < n ∧ loads (attempts k) = true ∧
    thumb_url (attempts k) = Ok u ∧
    response (attempts k) = Ok (200%Z, content) ∧
    (10000 < Z.of_nat (length content))%Z ∧
    url = OVal (Str u) ∧ img = OImage (Image content).
Proof.
  unfold fetch_valid_thumbnail. intros H.
  apply thumbnail_loop_shape in H as [(-> & -> & Hno)|Hyes].
  - left. split_and!; try done. intros j Hj. apply Hno. lia.
  - right. destruct Hyes as (k & u & content & Hk & Hrest).
    exists k, u, content. split; [lia|done].
Qed.


(** ** More about the band names *)

Lemma format_02d_decimal i : decimal (format_02d i) = Some i.
Proof.
  unfold decimal, format_02d.
  pose proof (NilEmpty.usu (Nat.to_uint i)) as Hs.
  pose proof (DecimalNat.Unsigned.of_to i) as Hi.
  destruct (NilEmpty.string_of_uint (Nat.to_uint i)) as [|c [|c' s]] eqn:Heq.
  - simpl in *. injection Hs as Hs. rewrite <- Hs in Hi. simpl in Hi.
    by rewrite <- Hi.
  - change (NilEmpty.uint_of_string (String "0" (String c "")))
      with (DecimalString.uint_of_char "0"
              (NilEmpty.uint_of_string (String c ""))).
    rewrite Hs. simpl. f_equal. rewrite <- Hi at 2.
    unfold Nat.of_uint. done.
  - rewrite Hs. simpl. by rewrite Hi.
Qed.

Lemma band_name_inj i j :
  "A" +:+ format_02d i = "A" +:+ format_02d j → i = j.
Proof.
  intros [= H]. change (format_02d i = format_02d j) in H.
  pose proof (format_02d_decimal i) as Hi. rewrite H in Hi.
  rewrite format_02d_decimal in Hi. by injection Hi.
Qed.

(** X14: [f"A{i:02d}"] names each band by its number. The digits of
    [format_02d i] read back as [i], so different numbers give different
    names; the 64 band names are pairwise distinct, and the name at
    position [i] of [band_names] is the one of number [i]. So position
    [i] of every embedding list is read from band [i] and from no other. *)
Theorem band_names_are_numbered_and_distinct :
  (∀ i, decimal (format_02d i) = Some i) ∧
  NoDup band_names ∧
  (∀ i b, band_names !! i = Some b ↔ i < 64 ∧ b = "A" +:+ format_02d i).
Proof.
  split_and!.
  - apply format_02d_decimal.
  - unfold band_names. apply NoDup_fmap_2_strong; [|apply NoDup_seq].
    intros i j _ _. apply band_name_inj.
  - intros i b. unfold band_names. rewrite list_lookup_fmap. split.
    + destruct (seq 0 64 !! i) as [j|] eqn:Hj; [|done].
      apply lookup_seq in Hj as [-> Hi]. simpl. intros [= <-]. done.
    + intros [Hi ->]. by rewrite (lookup_seq_lt _ _ _ Hi).
Qed.

(** ** More about submitting *)

Lemma strip_truthy s :
  truthy (strip s) = true ↔ Exists (λ c, isspace c = false) s.
Proof.
  split.
  - intros Ht. destruct (strip s) as [|c l] eqn:Hs; [done|].
    destruct (strip_decompose s) as (l1 & r & Hdec & _).
    rewrite Hdec, Hs. apply Exists_app. right. apply Exists_app. left.
    left. apply (strip_head s). by rewrite Hs.
  - intros Hex. destruct (strip s) as [|c l] eqn:Hs; [|done].
    apply strip_blank in Hs. apply Exists_exists in Hex as (c & Hc & Hns).
    eapply Forall_forall in Hs; [|exact Hc]. simpl in Hs. congruence.
Qed.

Lemma random_point_loop_events draws n : ∀ i w,
  ∃ evs, (random_point_loop draws i n w).2 = logs evs w ∧
         Forall (λ e, is_draw e = true) evs.
Proof.
  induction n as [|n IH]; intros i w; simpl.
  - exists []. by rewrite logs_nil.
  - assert (Hstop : ∃ evs, logs [Randint (seed (draws i))] w = logs evs w ∧
                           Forall (λ e, is_draw e = true) evs).
    { eexists. split; [done|]. by repeat constructor. }
    run_M. run_res. rewrite log_logs.
    destruct (coordinates (draws i)) as [c|e]; simpl; [|exact Hstop].
    destruct (unpack2 c) as [[lon lat]|e]; simpl; [|exact Hstop].
    destruct (mean_B4 (draws i)) as [v|e]; simpl; [|exact Hstop].
    destruct v; try exact Hstop.
    destruct (IH (S i) (logs [Randint (seed (draws i))] w)) as (evs & -> & Hn).
    eexists. rewrite logs_logs. split; [done|].
    apply Forall_app. split; [by repeat constructor|done].
Qed.

(** X15: a caption passes the sampler's guard exactly when it has a
    character that is not whitespace, and then the save goes first and the
    search for the next point second. When the save completes, both files
    stay as the save left them whatever the search does. If the search
    returns, its result becomes the session's current point and the script
    reruns; if it raises, the exception leaves the handler with the save
    already on disk, the current point unchanged and no rerun requested. *)
Theorem submitted_save_outlives_the_next_search
    square caption answer draws w w1 :
  Exists (λ c, isspace c = false) caption →
  save_submission square caption answer w = (Ok (), w1) →
  ∃ evs,
    records (submit square caption answer draws w).2 = records w1 ∧
    json_file (submit square caption answer draws w).2 = json_file w1 ∧
    parquet_file (submit square caption answer draws w).2 = parquet_file w1 ∧
    Forall (λ e, is_draw e = true) evs ∧
    match (get_random_valid_point max_tries draws w1).1 with
    | Ok c =>
        (submit square caption answer draws w).1 = Ok () ∧
        current (submit square caption answer draws w).2 = Some c ∧
        trace (submit square caption answer draws w).2
        = trace w1 ++ evs ++ [Rerun]
    | Raise e =>
        (submit square caption answer draws w).1 = Raise e ∧
        current (submit square caption answer draws w).2 = current w ∧
        trace (submit square caption answer draws w).2 = trace w1 ++ evs
    end.
Proof.
  intros Htext Hsave. apply strip_truthy in Htext.
  unfold submit. rewrite Htext. run_M. rewrite Hsave.
  unfold next_sample, get_random_valid_point. run_M.
  destruct (random_point_loop_events draws max_tries 0 w1) as (evs & Hw & Hev).
  exists evs.
  apply (perform_Ok (SentinelSubmit square)) in Hsave
    as (feats & t & _ & _ & _ & Hw1).
  destruct (random_point_loop draws 0 max_tries w1) as [[c|e] w2];
    simpl in *; subst w2; simpl; split_and!; try done.
  - by rewrite <- app_assoc.
  - by rewrite Hw1.
Qed.


(** ** The scripts from top to bottom *)

Ltac run_S :=
  unfold mbind, mret, Script_mbind, Script_mret, Script_bind, Script_ret,
    in_world, initialized, set_initialized in *.

Lemma same_files_refl w : same_files w w.
Proof. done. Qed.

Lemma same_files_trans w1 w2 w3 :
  same_files w1 w2 → same_files w2 w3 → same_files w1 w3.
Proof. unfold same_files. intros [-> ->] [-> ->]. done. Qed.

Lemma same_files_logs evs w : same_files w (logs evs w).
Proof. done. Qed.

Lemma perform_current a caption answer w :
  current (perform a caption answer w).2 = current w.
Proof.
  rewrite perform_spec. cbv zeta.
  destruct answer as [feats|e]; simpl; [|done].
  destruct (loop_outcome caption feats) as [[]|e]; simpl; [|done].
  destruct (frame a _) as [t|e]; simpl; [|done].
  by destruct (to_arrow t) as [[]|e].
Qed.

Lemma perform_same_files_unless_features a caption answer w :
  same_files w (perform a caption answer w).2 ∨ ∃ feats, answer = Ok feats.
Proof. destruct answer as [feats|e]; [eauto|]. left. by rewrite perform_spec. Qed.

Lemma next_sample_cases draws w :
  ∃ evs,
    Forall (λ e, is_draw e = true) evs ∧
    ((∃ c, get_random_valid_point max_tries draws w = (Ok c, logs evs w) ∧
           searched (Some c) ∧
           next_sample draws w
           = (Ok (), log Rerun (set_current (Some c) (logs evs w)))) ∨
     (∃ e, get_random_valid_point max_tries draws w = (Raise e, logs evs w) ∧
           next_sample draws w = (Raise e, logs evs w))).
Proof.
  unfold next_sample, get_random_valid_point. run_M.
  destruct (random_point_loop_events draws max_tries 0 w) as (evs & Hw & Hev).
  exists evs. split; [done|].
  destruct (random_point_loop draws 0 max_tries w) as [[c|e] w1] eqn:Hrun;
    simpl in Hw; subst w1.
  - left. exists c. split_and!; try done.
    apply random_point_loop_shape in Hrun as [->|(s & lon & lat & ->)]; simpl.
    + by left.
    + right. by eexists _, _, _, _.
  - right. by exists e.
Qed.

Lemma next_sample_searched draws w :
  same_files w (next_sample draws w).2 ∧
  (searched (current w) → searched (current (next_sample draws w).2)).
Proof.
  destruct (next_sample_cases draws w)
    as (evs & _ & [(c & _ & Hc & ->)|(e & _ & ->)]); simpl; done.
Qed.

Lemma submit_searched square caption answer draws w :
  (same_files w (submit square caption answer draws w).2 ∨
   Exists (λ c, isspace c = false) caption ∧ ∃ feats, answer = Ok feats) ∧
  (searched (current w) →
   searched (current (submit square caption answer draws w).2)).
Proof.
  unfold submit. destruct (truthy (strip caption)) eqn:Ht; [|by split; [left|]].
  apply strip_truthy in Ht. run_M.
  pose proof (perform_current (SentinelSubmit square) caption answer w) as Hc.
  pose proof (perform_same_files_unless_features
                (SentinelSubmit square) caption answer w) as Hf.
  simpl in Hc, Hf.
  destruct (save_submission square caption answer w) as [[[]|e] w1];
    simpl in *.
  - destruct (next_sample_searched draws w1) as [Hs Hsearched]. split.
    + destruct Hf as [Hf|Hf]; [left; by eapply same_files_trans|by right].
    + rewrite <- Hc. exact Hsearched.
  - split; [|by rewrite Hc]. destruct Hf; [by left|by right].
Qed.

Lemma buttons_run sq lon lat save_btn skip_btn caption answer draws i w :
  (same_files w
     (buttons sq lon lat save_btn skip_btn caption answer draws (i, w)).2.2 ∨
   skip_btn = false ∧ save_btn = true ∧
   Exists (λ c, isspace c = false) caption ∧ ∃ feats, answer = Ok feats) ∧
  (buttons sq lon lat save_btn skip_btn caption answer draws (i, w)).2.1 = i ∧
  (searched (current w) →
   searched (current
     (buttons sq lon lat save_btn skip_btn caption answer draws (i, w)).2.2)).
Proof.
  unfold buttons, same_files.
  destruct (format_coordinate lat ≫= λ _, format_coordinate lon) as [[]|e];
    run_S; unfold lift; simpl; [|by split_and!; [left|..]].
  destruct skip_btn.
  - unfold skip. destruct (next_sample_searched draws w) as [Hs Hc].
    unfold same_files in Hs. simpl.
    destruct (next_sample draws w) as [[[]|e] w1]; simpl in *;
      by split_and!; [left|..].
  - destruct save_btn; [|by split_and!; [left|..]].
    destruct (submit_searched sq caption answer draws w) as [Hs Hc].
    unfold same_files in Hs. simpl.
    destruct (submit sq caption answer draws w) as [[[]|e] w1]; simpl in *;
      (split_and!; [|done|done]);
      (destruct Hs as [Hs|[? ?]]; [by left|by right]).
Qed.


Lemma thumbnail_stage_run
    sq lon lat save_btn skip_btn caption attempts answer draws i w :
  (same_files w
     (thumbnail_stage sq lon lat save_btn skip_btn caption attempts answer
                      draws (i, w)).2.2 ∨
   save_requested save_btn skip_btn caption attempts answer) ∧
  (thumbnail_stage sq lon lat save_btn skip_btn caption attempts answer
                   draws (i, w)).2.1 = i ∧
  (searched (current w) →
   searched (current
     (thumbnail_stage sq lon lat save_btn skip_btn caption attempts answer
                      draws (i, w)).2.2)).
Proof.
  unfold thumbnail_stage, fetch_valid_thumbnail.
  destruct (thumbnail_loop_spec sq timeout attempts 0 tries w)
    as (evs & [url img] & Hrun & _).
  pose proof (thumbnail_loop_shape sq timeout attempts tries 0 w url img _ Hrun)
    as Hshape.
  run_S. unfold emit. cbn [fst snd]. rewrite Hrun. cbn [fst snd].
  rewrite log_logs, logs_logs.
  set (w1 := logs (evs ++ [Sleep spinner_pause]) w).
  assert (Hbuttons :
    (same_files w
       (buttons sq lon lat save_btn skip_btn caption answer draws (i, w1)).2.2 ∨
     save_requested save_btn skip_btn caption attempts answer ∨
     img = ONone) ∧
    (buttons sq lon lat save_btn skip_btn caption answer draws (i, w1)).2.1 = i ∧
    (searched (current w) →
     searched (current
       (buttons sq lon lat save_btn skip_btn caption answer draws
                (i, w1)).2.2))).
  { destruct (buttons_run sq lon lat save_btn skip_btn caption answer draws
                          i w1) as (Hf & Hi & Hc).
    split_and!; [|done|done].
    destruct Hf as [Hf|(Hskip & Hsave & Htext & Hfeats)]; [by left|].
    right.
    destruct Hshape as [(_ & -> & _)|(k & u & content & Hk & Hl & _)];
      [by right|].
    left. split_and!; try done. exists k. split; [lia|done]. }
  destruct img as [[]| |];
    try (destruct Hbuttons as (Hf & Hi & Hc);
         (split_and!; [|done|done]);
         destruct Hf as [?|[?|?]]; [by left|by right|done]).
  destruct (next_sample_searched draws
    (log (Warning "Could not load image (likely rate-limited). Retrying automatically...") w1))
    as [Hs Hc]. unfold same_files in Hs.
  destruct (next_sample draws _) as [[[]|e] w2]; simpl in *;
    by split_and!; [left|..].
Qed.


Lemma ensure_current_run first_draws i w :
  same_files w (ensure_current first_draws (i, w)).2.2 ∧
  (ensure_current first_draws (i, w)).2.1 = i ∧
  (searched (current w) →
   searched (current (ensure_current first_draws (i, w)).2.2)) ∧
  (∀ c, current w = Some c →
        ensure_current first_draws (i, w) = (Ok c, (i, w))).
Proof.
  unfold ensure_current. run_S. unfold read, modify. cbn [fst snd].
  destruct (current w) as [c|] eqn:Hcur.
  - split_and!; try done; [by cbn [fst snd]; rewrite Hcur|by intros c' [= <-]].
  - cbn [fst snd].
    destruct (next_sample_cases first_draws w)
      as (evs & _ & [(c & -> & Hc & _)|(e & -> & _)]); cbn [fst snd];
      split_and!; try done.
    simpl. by rewrite Hcur.
Qed.

Lemma with_current_run c save_btn skip_btn caption attempts answer draws i w :
  (same_files w
     (with_current c save_btn skip_btn caption attempts answer draws
                   (i, w)).2.2 ∨
   save_requested save_btn skip_btn caption attempts answer) ∧
  (with_current c save_btn skip_btn caption attempts answer draws
                (i, w)).2.1 = i ∧
  (searched (current w) →
   searched (current
     (with_current c save_btn skip_btn caption attempts answer draws
                   (i, w)).2.2)).
Proof.
  destruct c as [[[pt lon] lat] square]. unfold with_current.
  assert (Hstop : ∀ r : res ending,
    (same_files w (r, (i, w)).2.2 ∨
     save_requested save_btn skip_btn caption attempts answer) ∧
    (r, (i, w)).2.1 = i ∧
    (searched (current w) → searched (current (r, (i, w)).2.2))).
  { intros r. by split_and!; [left|..]. }
  destruct pt as [[]|g|im], square as [v|sq|im'];
    try apply Hstop; apply thumbnail_stage_run.
Qed.

(** X16: a run of the sampler writes to the dataset only for a requested
    save. If either file differs after the run, then the session was
    initialized, "Submit" was pressed and "Skip" was not, the caption has
    a character that is not whitespace, some thumbnail attempt of this run
    loaded an image, and the sample call returned features. In every
    other run (landing page, no valid point, failed thumbnail, skip, blank
    caption, failed sample call) both files stay as they were. *)
Theorem sampler_writes_only_on_a_requested_save
    start_btn save_btn skip_btn caption first_draws attempts answer draws
    init w :
  ¬ same_files w
      (sentinel_script start_btn save_btn skip_btn caption first_draws
                       attempts answer draws (init, w)).2.2 →
  init = true ∧ save_requested save_btn skip_btn caption attempts answer.
Proof.
  unfold sentinel_script, load_records. run_S. unfold modify.
  cbn [fst snd]. fold (loaded w).
  assert (Hl : same_files w (loaded w)) by done.
  destruct init; cbn [negb].
  - intros Hdiff. split; [done|].
    destruct (ensure_current_run first_draws true (loaded w))
      as (Hs1 & _ & _ & _).
    destruct (ensure_current first_draws (true, loaded w))
      as [[c|e] [i1 w1]]; cbn [fst snd] in *.
    + destruct (with_current_run c save_btn skip_btn caption attempts answer
                                 draws i1 w1) as ([Hs2|Hreq] & _); [|done].
      destruct Hdiff.
      eapply same_files_trans; [exact Hl|].
      eapply same_files_trans; [exact Hs1|exact Hs2].
    + destruct Hdiff. by eapply same_files_trans.
  - intros Hdiff. destruct Hdiff. unfold landing.
    destruct start_btn; [|done]. run_S. cbn [fst snd].
    destruct (next_sample_searched first_draws (loaded w)) as [Hs _].
    destruct (next_sample first_draws (loaded w)) as [[[]|e] w1];
      cbn [fst snd] in *; by eapply same_files_trans.
Qed.

(** X17: the session state stays well formed. After any run of the
    sampler's script the current point is still absent or a tuple the
    search returned (all [None], or a point with its coordinates and the
    buffer bounds of that point), and ["initialized"], once set, stays
    set. *)
Theorem sampler_session_stays_well_formed
    start_btn save_btn skip_btn caption first_draws attempts answer draws
    init w :
  searched (current w) →
  searched (current
    (sentinel_script start_btn save_btn skip_btn caption first_draws
                     attempts answer draws (init, w)).2.2) ∧
  (init = true →
   (sentinel_script start_btn save_btn skip_btn caption first_draws
                    attempts answer draws (init, w)).2.1 = true).
Proof.
  intros Hcur.
  unfold sentinel_script, load_records. run_S. unfold modify.
  cbn [fst snd]. fold (loaded w).
  assert (Hl : searched (current (loaded w))) by done.
  destruct init; cbn [negb].
  - destruct (ensure_current_run first_draws true (loaded w))
      as (_ & Hi1 & Hc1 & _).
    destruct (ensure_current first_draws (true, loaded w))
      as [[c|e] [i1 w1]]; cbn [fst snd] in *; [|by split; [apply Hc1|]].
    destruct (with_current_run c save_btn skip_btn caption attempts answer
                               draws i1 w1) as (_ & Hi2 & Hc2).
    split; [by apply Hc2, Hc1|]. intros _. by rewrite Hi2.
  - split; [|done]. unfold landing.
    destruct start_btn; [|done]. run_S. cbn [fst snd].
    destruct (next_sample_searched first_draws (loaded w)) as [_ Hc].
    destruct (next_sample first_draws (loaded w)) as [[[]|e] w1];
      cbn [fst snd] in *; by apply Hc.
Qed.

(** X18: the landing page. Until "Start Sampling" is pressed a run stops
    there: no service call, no write, nothing but the reloaded list
    changes. When it is pressed the session is marked initialized before
    the first search, so the mark stays even when that search raises, and
    in that case no current point is stored. *)
Theorem landing_page_gates_the_sampler
    start_btn save_btn skip_btn caption first_draws attempts answer draws w :
  (start_btn = false →
   sentinel_script start_btn save_btn skip_btn caption first_draws
                   attempts answer draws (false, w)
   = (Ok (Stopped None), (false, loaded w))) ∧
  (start_btn = true →
   (sentinel_script start_btn save_btn skip_btn caption first_draws
                    attempts answer draws (false, w)).2.1 = true ∧
   match (get_random_valid_point max_tries first_draws (loaded w)).1 with
   | Ok c =>
       (sentinel_script start_btn save_btn skip_btn caption first_draws
                        attempts answer draws (false, w)).1 = Ok Reran ∧
       current (sentinel_script start_btn save_btn skip_btn caption
                  first_draws attempts answer draws (false, w)).2.2 = Some c
   | Raise e =>
       (sentinel_script start_btn save_btn skip_btn caption first_draws
                        attempts answer draws (false, w)).1 = Raise e ∧
       current (sentinel_script start_btn save_btn skip_btn caption
                  first_draws attempts answer draws (false, w)).2.2
       = current w
   end).
Proof.
  unfold sentinel_script, load_records, landing. run_S. unfold modify.
  cbn [fst snd negb]. fold (loaded w).
  split; intros ->; [done|]. cbn [fst snd].
  destruct (next_sample_cases first_draws (loaded w))
    as (evs & _ & [(c & Hg & _ & ->)|(e & Hg & ->)]); rewrite Hg;
    cbn [fst snd]; done.
Qed.

(** X19: a search that found no point is a dead end for the session. With
    [(None, None, None, None)] as the current point every later run shows
    the error and stops before the thumbnail and before the buttons,
    whatever is pressed: nothing is fetched or written and the current
    point stays what it is, so no run of the script leaves this state. *)
Theorem no_point_is_a_dead_end
    start_btn save_btn skip_btn caption first_draws attempts answer draws w :
  current w = Some no_point →
  sentinel_script start_btn save_btn skip_btn caption first_draws
                  attempts answer draws (true, w)
  = (Ok (Stopped (Some "Could not find visible imagery; try smaller thumbnail or larger scale.")),
     (true, loaded w)) ∧
  current (loaded w) = Some no_point ∧
  trace (loaded w) = trace w.
Proof.
  intros Hcur.
  unfold sentinel_script, load_records. run_S. unfold modify.
  cbn [fst snd negb]. fold (loaded w).
  destruct (ensure_current_run first_draws true (loaded w))
    as (_ & _ & _ & Hsame).
  rewrite (Hsame no_point) by done. done.
Qed.


Lemma perform_trace a caption answer w :
  ∃ evs, trace (perform a caption answer w).2
         = trace w ++ Sample (region a) SAMPLE_SCALE (num_pixels a) :: evs.
Proof.
  rewrite perform_spec. cbv zeta.
  destruct answer as [feats|e]; simpl; [|by exists []].
  destruct (loop_outcome caption feats) as [[]|e]; simpl; [|by exists []].
  destruct (frame a _) as [t|e]; simpl;
    [destruct (to_arrow t) as [[]|e]; simpl|];
    eexists; by rewrite <- !app_assoc.
Qed.

(** X20: the picker acts only on a click with the button pressed. If a
    run of its script makes any call or write (its trace or a file
    changes), then the map returned a click, "Save Sample" was pressed, and
    the run is the save for that click: the region sampled is the bounds of
    the buffer of [THUMB_METERS] around the point at the clicked [lng] and
    [lat]. Without a click, or without the button, the run only reloads
    the list. *)
Theorem picker_acts_only_on_a_click_with_the_button
    output caption save_btn answer w :
  trace (picker_script output caption save_btn answer w).2 ≠ trace w ∨
  ¬ same_files w (picker_script output caption save_btn answer w).2 →
  save_btn = true ∧ truth output = true ∧
  ∃ c lon lat,
    getitem output "last_clicked" = Ok c ∧ truth c = true ∧
    getitem c "lng" = Ok lon ∧ getitem c "lat" = Ok lat ∧
    picker_script output caption save_btn answer w
    = save_sample lon lat caption answer (loaded w) ∧
    ∃ evs, trace (picker_script output caption save_btn answer w).2
           = trace w ++ Sample (BufferBounds (Point lon lat) THUMB_METERS)
                               SAMPLE_SCALE None :: evs.
Proof.
  unfold picker_script, load_records. run_M. fold (loaded w).
  assert (Hnone : trace w ≠ trace w ∨ ¬ same_files w (loaded w) → False).
  { intros [H|H]; by destruct H. }
  destruct (truth output) eqn:Hout; run_res; [|intros H; by destruct (Hnone H)].
  destruct output as [| | | | | |d]; simpl;
    try (intros H; by destruct (Hnone H)).
  destruct (d !! "last_clicked") as [c|] eqn:Hc; simpl;
    [|intros H; by destruct (Hnone H)].
  destruct (truth c) eqn:Hclick; [|intros H; by destruct (Hnone H)].
  destruct (getitem c "lng") as [lon|] eqn:Hlon; simpl;
    [|intros H; by destruct (Hnone H)].
  destruct (getitem c "lat") as [lat|] eqn:Hlat; simpl;
    [|intros H; by destruct (Hnone H)].
  destruct (format_f lat) as [[]|]; simpl; [|intros H; by destruct (Hnone H)].
  destruct (format_f lon) as [[]|]; simpl; [|intros H; by destruct (Hnone H)].
  destruct save_btn; [|intros H; by destruct (Hnone H)].
  intros _. split_and!; try done.
  exists c, lon, lat. split_and!; try done.
  apply (perform_trace (PickerSave lon lat) caption answer (loaded w)).
Qed.

End Scripts.

(** ** Concrete runs *)

(** The states after one and after two saves of the same feature set,
    starting from an empty [labels] directory. *)
Local Abbreviation saved_once :=
  ((run Run.THUMB_METERS Run.SAMPLE_SCALE Run.arrow Run.click Run.caption
        (Ok [Run.feature]) Run.empty_labels).2).
Local Abbreviation saved_twice :=
  ((run Run.THUMB_METERS Run.SAMPLE_SCALE Run.arrow Run.click Run.caption
        (Ok [Run.feature]) saved_once).2).

Lemma saved_count_is_feature_count_witness :
  Forall (buildable Run.THUMB_METERS Run.SAMPLE_SCALE Run.caption)
         [Run.feature] ∧
  (∃ w', perform Run.THUMB_METERS Run.SAMPLE_SCALE Run.arrow Run.click
                 Run.caption (Ok [Run.feature]) Run.empty_labels
         = (Ok (), w') ∧
         last (trace w')
         = Some (Success (length [Run.feature]) Run.caption)) ∧
  (∃ w', perform Run.THUMB_METERS Run.SAMPLE_SCALE Run.arrow Run.shown
                 Run.caption (Ok [Run.feature]) Run.empty_labels
         = (Ok (), w') ∧
         last (trace w')
         = Some (Success (length [Run.feature]) Run.caption)).
Proof.
  assert (H : Forall (buildable Run.THUMB_METERS Run.SAMPLE_SCALE Run.caption)
                     [Run.feature]).
  { constructor; [|constructor]. eexists. vm_compute. reflexivity. }
  split; [exact H|]. split.
  - apply (proj2 (saved_count_is_feature_count
                    Run.THUMB_METERS Run.SAMPLE_SCALE Run.arrow Run.click
                    Run.caption Run.empty_labels)
                 [Run.feature]
                 (DataFrame (built Run.THUMB_METERS Run.SAMPLE_SCALE
                                   Run.caption [Run.feature])));
      [exact H|vm_compute; reflexivity|vm_compute; reflexivity].
  - apply (proj2 (saved_count_is_feature_count
                    Run.THUMB_METERS Run.SAMPLE_SCALE Run.arrow Run.shown
                    Run.caption Run.empty_labels)
                 [Run.feature]
                 (built Run.THUMB_METERS Run.SAMPLE_SCALE
                        Run.caption [Run.feature]));
      [exact H|vm_compute; reflexivity|vm_compute; reflexivity].
Defined.

Lemma files_rewritten_from_same_records_witness :
  Forall (buildable Run.THUMB_METERS Run.SAMPLE_SCALE Run.caption)
         [Run.feature] ∧
  Forall tool_written (records Run.empty_labels) ∧
  (∃ w', perform Run.THUMB_METERS Run.SAMPLE_SCALE Run.arrow Run.click
                 Run.caption (Ok [Run.feature]) Run.empty_labels
         = (Ok (), w') ∧
         json_file w'
         = Array (records Run.empty_labels ++
                  built Run.THUMB_METERS Run.SAMPLE_SCALE Run.caption
                        [Run.feature]) ∧
         parquet_file w'
         = Some (records Run.empty_labels ++
                 built Run.THUMB_METERS Run.SAMPLE_SCALE Run.caption
                       [Run.feature])) ∧
  (∃ w', perform Run.THUMB_METERS Run.SAMPLE_SCALE Run.arrow Run.shown
                 Run.caption (Ok [Run.feature]) Run.empty_labels
         = (Ok (), w') ∧
         json_file w'
         = Array (records Run.empty_labels ++
                  built Run.THUMB_METERS Run.SAMPLE_SCALE Run.caption
                        [Run.feature]) ∧
         parquet_file w'
         = Some (records Run.empty_labels ++
                 built Run.THUMB_METERS Run.SAMPLE_SCALE Run.caption
                       [Run.feature])).
Proof.
  assert (H1 : Forall (buildable Run.THUMB_METERS Run.SAMPLE_SCALE Run.caption)
                      [Run.feature]).
  { constructor; [|constructor]. eexists. vm_compute. reflexivity. }
  assert (H2 : Forall tool_written (records Run.empty_labels))
    by constructor.
  split; [exact H1|]. split; [exact H2|]. split.
  - apply (proj2 (files_rewritten_from_same_records
                    Run.THUMB_METERS Run.SAMPLE_SCALE Run.arrow Run.click
                    Run.caption Run.empty_labels));
      [exact H1|exact H2|vm_compute; reflexivity].
  - apply (proj2 (files_rewritten_from_same_records
                    Run.THUMB_METERS Run.SAMPLE_SCALE Run.arrow Run.shown
                    Run.caption Run.empty_labels));
      [exact H1|exact H2|vm_compute; reflexivity].
Defined.

(** C5, as the specification words it, fails on the code: after a second
    save of the same one-feature set both files hold two rows, not one. *)
Lemma resave_is_not_idempotent :
  run Run.THUMB_METERS Run.SAMPLE_SCALE Run.arrow Run.click Run.caption
      (Ok [Run.feature]) Run.empty_labels = (Ok (), saved_once) ∧
  run Run.THUMB_METERS Run.SAMPLE_SCALE Run.arrow Run.click Run.caption
      (Ok [Run.feature]) saved_once = (Ok (), saved_twice) ∧
  json_rows saved_once = 1 ∧ json_rows saved_twice = 2 ∧
  parquet_rows saved_once = 1 ∧ parquet_rows saved_twice = 2 ∧
  json_rows saved_twice ≠ json_rows saved_once ∧
  parquet_rows saved_twice ≠ parquet_rows saved_once.
Proof. split_and!; vm_compute; (reflexivity || discriminate). Qed.

Lemma resave_appends_again_witness :
  run Run.THUMB_METERS Run.SAMPLE_SCALE Run.arrow Run.click Run.caption
      (Ok [Run.feature]) Run.empty_labels = (Ok (), saved_once) ∧
  run Run.THUMB_METERS Run.SAMPLE_SCALE Run.arrow Run.click Run.caption
      (Ok [Run.feature]) saved_once = (Ok (), saved_twice) ∧
  json_rows saved_twice = json_rows saved_once + length [Run.feature] ∧
  parquet_rows saved_twice
  = parquet_rows saved_once + length [Run.feature] ∧
  (json_rows saved_twice = json_rows saved_once ↔ [Run.feature] = []).
Proof.
  assert (H1 : run Run.THUMB_METERS Run.SAMPLE_SCALE Run.arrow Run.click Run.caption
                 (Ok [Run.feature]) Run.empty_labels = (Ok (), saved_once))
    by (vm_compute; reflexivity).
  assert (H2 : run Run.THUMB_METERS Run.SAMPLE_SCALE Run.arrow Run.click Run.caption
                 (Ok [Run.feature]) saved_once = (Ok (), saved_twice))
    by (vm_compute; reflexivity).
  split; [exact H1|]. split; [exact H2|].
  exact (resave_appends_again _ _ _ _ _ _ _ _ _ H1 H2).
Defined.

Lemma blank_caption_is_rejected_by_sampler_only_witness :
  Forall (λ c, isspace c = true) Run.blank ∧
  (∃ w',
     submit Run.THUMB_METERS Run.SAMPLE_SCALE Run.arrow
            (BufferBounds (RandomPoint 424242) Run.THUMB_METERS) Run.blank
            (Ok [Run.feature]) Run.rate_limited saved_once = (Ok (), w') ∧
     records w' = records saved_once ∧
     json_file w' = json_file saved_once ∧
     parquet_file w' = parquet_file saved_once ∧
     current w' = current saved_once ∧
     trace w' = trace saved_once
                ++ [Warning "Enter a caption before submitting."]) ∧
  Forall located [Run.feature] ∧
  ∃ new,
    records (save_sample Run.THUMB_METERS Run.SAMPLE_SCALE Run.arrow
               (Float (-98.5)) (Float 39.25) Run.blank (Ok [Run.feature])
               Run.empty_labels).2
    = records Run.empty_labels ++ new ∧
    length new = length [Run.feature] ∧
    Forall (λ r, r !! "caption" = Some (Str [])) new.
Proof.
  assert (H : Forall (λ c, isspace c = true) Run.blank)
    by (repeat constructor).
  assert (Hfeats : Forall located [Run.feature]).
  { constructor; [|constructor].
    unfold located, Run.feature. eexists _, _, _, _, _, _.
    split; [reflexivity|]. split_and!; reflexivity. }
  split; [exact H|]. split.
  - exact (proj1 (blank_caption_is_rejected_by_sampler_only
                    Run.THUMB_METERS Run.SAMPLE_SCALE Run.arrow Run.blank H)
                 _ _ _ _).
  - split; [exact Hfeats|].
    destruct (proj2 (blank_caption_is_rejected_by_sampler_only
                       Run.THUMB_METERS Run.SAMPLE_SCALE Run.arrow Run.blank H)
                    (Float (-98.5)) (Float 39.25) [Run.feature]
                    Run.empty_labels Hfeats)
      as (new & Hrec & Hlen & Hcap & _).
    exists new. split; [exact Hrec|]. split; [exact Hlen|exact Hcap].
Defined.



(** C7 fails on the code for the random-point search: nothing catches an
    exception of the service there. With a service that refuses every
    request, the first draw's exception leaves [get_random_valid_point],
    and with it the thumbnail stage's retry branch and the skip button;
    the thumbnail fetch itself has absorbed its own four failures. *)
Lemma random_point_failure_propagates :
  get_random_valid_point Run.THUMB_METERS max_tries Run.rate_limited
                         Run.empty_labels
  = (Raise EEException, logs [Randint 424242] Run.empty_labels) ∧
  (fetch_valid_thumbnail Run.THUMB_PIXELS
     (BufferBounds (RandomPoint 424242) Run.THUMB_METERS) tries timeout
     Run.no_thumbnail Run.empty_labels).1 = Ok (ONone, ONone) ∧
  (show_thumbnail Run.THUMB_METERS Run.THUMB_PIXELS
     (BufferBounds (RandomPoint 424242) Run.THUMB_METERS)
     Run.no_thumbnail Run.rate_limited Run.empty_labels).1
  = Raise EEException ∧
  (skip Run.THUMB_METERS Run.rate_limited Run.empty_labels).1
  = Raise EEException.
Proof. split_and!; reflexivity. Qed.

(** ** Concrete runs of the further properties *)

Lemma record_fields_come_from_feature_and_sidebar_witness :
  make_record Run.THUMB_METERS Run.SAMPLE_SCALE Run.caption Run.feature
  = Ok (record_of Run.THUMB_METERS Run.SAMPLE_SCALE Run.caption
          {[ "A00" := Float 0.125; "A63" := Float (-0.5) ]}
          (Float (-98.5)) (Float 39.25)) ∧
  record_of Run.THUMB_METERS Run.SAMPLE_SCALE Run.caption
    {[ "A00" := Float 0.125; "A63" := Float (-0.5) ]}
    (Float (-98.5)) (Float 39.25) !! "thumb_m"
  = Some (Int Run.THUMB_METERS).
Proof.
  assert (H : make_record Run.THUMB_METERS Run.SAMPLE_SCALE Run.caption
                Run.feature
              = Ok (record_of Run.THUMB_METERS Run.SAMPLE_SCALE Run.caption
                      {[ "A00" := Float 0.125; "A63" := Float (-0.5) ]}
                      (Float (-98.5)) (Float 39.25)))
    by (vm_compute; reflexivity).
  split; [exact H|].
  exact (proj1 (proj2 (record_fields_come_from_feature_and_sidebar
                         _ _ _ _ _ H))).
Defined.

Lemma first_bad_feature_ends_the_save_witness :
  Forall (buildable Run.THUMB_METERS Run.SAMPLE_SCALE Run.caption)
         [Run.feature] ∧
  make_record Run.THUMB_METERS Run.SAMPLE_SCALE Run.caption Run.no_geometry
  = Raise (KeyError (inl "geometry")) ∧
  (perform Run.THUMB_METERS Run.SAMPLE_SCALE Run.arrow Run.click Run.caption
           (Ok ([Run.feature] ++ Run.no_geometry :: [Run.feature]))
           Run.empty_labels).1
  = Raise (KeyError (inl "geometry")).
Proof.
  assert (H1 : Forall (buildable Run.THUMB_METERS Run.SAMPLE_SCALE Run.caption)
                      [Run.feature]).
  { constructor; [|constructor]. eexists. vm_compute. reflexivity. }
  assert (H2 : make_record Run.THUMB_METERS Run.SAMPLE_SCALE Run.caption
                 Run.no_geometry = Raise (KeyError (inl "geometry")))
    by (vm_compute; reflexivity).
  split; [exact H1|]. split; [exact H2|].
  exact (f_equal fst (proj1 (first_bad_feature_ends_the_save
    Run.THUMB_METERS Run.SAMPLE_SCALE Run.arrow Run.click Run.caption
    [Run.feature] Run.no_geometry [Run.feature] _ Run.empty_labels H1 H2))).
Defined.

Lemma sampler_save_can_stop_between_the_files_witness :
  Forall (buildable Run.THUMB_METERS Run.SAMPLE_SCALE Run.caption)
         [Run.feature] ∧
  Exists (λ r, ¬ fields ⊆ dom r)
         (records (World [Run.foreign_record] (Array [Run.foreign_record])
                         None None [])) ∧
  ∃ k,
    k ∈ fields ∧
    (save_submission Run.THUMB_METERS Run.SAMPLE_SCALE Run.arrow
       (BufferBounds (RandomPoint 424242) Run.THUMB_METERS) Run.caption
       (Ok [Run.feature])
       (World [Run.foreign_record] (Array [Run.foreign_record])
              None None [])).1
    = Raise (KeyError (inl k)).
Proof.
  assert (H1 : Forall (buildable Run.THUMB_METERS Run.SAMPLE_SCALE Run.caption)
                      [Run.feature]).
  { constructor; [|constructor]. eexists. vm_compute. reflexivity. }
  assert (H2 : Exists (λ r, ¬ fields ⊆ dom r)
                 (records (World [Run.foreign_record]
                                 (Array [Run.foreign_record]) None None []))).
  { left. intros Hsub.
    assert (Hin : "thumb_m" ∈ dom Run.foreign_record).
    { apply Hsub. unfold fields. set_solver. }
    apply elem_of_dom in Hin as [v Hv]. vm_compute in Hv. discriminate. }
  split; [exact H1|]. split; [exact H2|].
  destruct (sampler_save_can_stop_between_the_files
              Run.THUMB_METERS Run.SAMPLE_SCALE Run.arrow
              (BufferBounds (RandomPoint 424242) Run.THUMB_METERS)
              Run.caption [Run.feature] _ H1 H2) as (k & Hk & Hrun).
  exists k. split; [exact Hk|]. exact (f_equal fst Hrun).
Defined.

Lemma unreadable_json_starts_the_dataset_over_witness :
  (json_file Run.broken_json = Missing ∨
   json_file Run.broken_json = Unreadable) ∧
  run Run.THUMB_METERS Run.SAMPLE_SCALE Run.arrow Run.click Run.caption
      (Ok [Run.feature; Run.feature]) Run.broken_json
  = (Ok (), (run Run.THUMB_METERS Run.SAMPLE_SCALE Run.arrow Run.click Run.caption
                 (Ok [Run.feature; Run.feature]) Run.broken_json).2) ∧
  parquet_rows (run Run.THUMB_METERS Run.SAMPLE_SCALE Run.arrow Run.click Run.caption
                    (Ok [Run.feature; Run.feature]) Run.broken_json).2
  = length [Run.feature; Run.feature].
Proof.
  assert (H1 : json_file Run.broken_json = Missing ∨
               json_file Run.broken_json = Unreadable) by (right; reflexivity).
  assert (H2 : run Run.THUMB_METERS Run.SAMPLE_SCALE Run.arrow Run.click Run.caption
                   (Ok [Run.feature; Run.feature]) Run.broken_json
               = (Ok (), (run Run.THUMB_METERS Run.SAMPLE_SCALE Run.arrow Run.click
                              Run.caption (Ok [Run.feature; Run.feature])
                              Run.broken_json).2))
    by (vm_compute; reflexivity).
  split; [exact H1|]. split; [exact H2|].
  exact (proj2 (proj2 (proj2 (unreadable_json_starts_the_dataset_over
                                _ _ _ _ _ _ _ _ H1 H2)))).
Defined.

Lemma sampler_table_has_the_six_columns_witness :
  save_submission Run.THUMB_METERS Run.SAMPLE_SCALE Run.arrow
    (BufferBounds (RandomPoint 424242) Run.THUMB_METERS) Run.caption
    (Ok [Run.feature]) saved_once
  = (Ok (), (save_submission Run.THUMB_METERS Run.SAMPLE_SCALE Run.arrow
               (BufferBounds (RandomPoint 424242) Run.THUMB_METERS)
               Run.caption (Ok [Run.feature]) saved_once).2) ∧
  json_file (save_submission Run.THUMB_METERS Run.SAMPLE_SCALE Run.arrow
               (BufferBounds (RandomPoint 424242) Run.THUMB_METERS)
               Run.caption (Ok [Run.feature]) saved_once).2
  = Array (records (save_submission Run.THUMB_METERS Run.SAMPLE_SCALE Run.arrow
                      (BufferBounds (RandomPoint 424242) Run.THUMB_METERS)
                      Run.caption (Ok [Run.feature]) saved_once).2).
Proof.
  assert (H : save_submission Run.THUMB_METERS Run.SAMPLE_SCALE Run.arrow
                (BufferBounds (RandomPoint 424242) Run.THUMB_METERS)
                Run.caption (Ok [Run.feature]) saved_once
              = (Ok (), (save_submission Run.THUMB_METERS Run.SAMPLE_SCALE Run.arrow
                           (BufferBounds (RandomPoint 424242)
                                         Run.THUMB_METERS)
                           Run.caption (Ok [Run.feature]) saved_once).2))
    by (vm_compute; reflexivity).
  split; [exact H|].
  exact (proj1 (sampler_table_has_the_six_columns _ _ _ _ _ _ _ _ H)).
Defined.

Lemma random_point_search_returns_first_covered_draw_witness :
  2 < max_tries ∧
  (∀ j, j < 2 → no_coverage (Run.covered_third j)) ∧
  get_random_valid_point Run.THUMB_METERS max_tries Run.covered_third
                         Run.empty_labels
  = (Ok (point_at 424242 (Float (-98.5)) (Float 39.25) Run.THUMB_METERS),
     logs [Randint 0; Randint 1; Randint 424242] Run.empty_labels).
Proof.
  assert (H1 : 2 < max_tries) by (unfold max_tries; lia).
  assert (H2 : ∀ j, j < 2 → no_coverage (Run.covered_third j)).
  { intros j Hj. assert (j = 0 ∨ j = 1) as [-> | ->] by lia;
      (split; [by eexists _, _|done]). }
  split; [exact H1|]. split; [exact H2|].
  exact (proj1 (random_point_search_returns_first_covered_draw
    Run.THUMB_METERS Run.covered_third 2 (Float (-98.5)) (Float 39.25)
    (Float 812.5) Run.empty_labels H1 H2 eq_refl eq_refl
    ltac:(discriminate))).
Defined.

Lemma random_point_result_is_all_or_nothing_witness :
  get_random_valid_point Run.THUMB_METERS max_tries Run.covered_third
                         Run.empty_labels
  = (Ok (point_at 424242 (Float (-98.5)) (Float 39.25) Run.THUMB_METERS),
     logs [Randint 0; Randint 1; Randint 424242] Run.empty_labels) ∧
  (point_at 424242 (Float (-98.5)) (Float 39.25) Run.THUMB_METERS = no_point ∨
   ∃ s lon lat,
     point_at 424242 (Float (-98.5)) (Float 39.25) Run.THUMB_METERS
     = point_at s lon lat Run.THUMB_METERS).
Proof.
  assert (H : get_random_valid_point Run.THUMB_METERS max_tries
                Run.covered_third Run.empty_labels
              = (Ok (point_at 424242 (Float (-98.5)) (Float 39.25)
                              Run.THUMB_METERS),
                 logs [Randint 0; Randint 1; Randint 424242]
                      Run.empty_labels))
    by (vm_compute; reflexivity).
  split; [exact H|].
  exact (random_point_result_is_all_or_nothing _ _ _ _ _ _ H).
Defined.

Lemma random_point_search_stops_at_first_exception_witness :
  2 < max_tries ∧
  (∀ j, j < 2 → no_coverage (Run.one_coordinate_third j)) ∧
  draw_raises (Run.one_coordinate_third 2) ValueError ∧
  get_random_valid_point Run.THUMB_METERS max_tries Run.one_coordinate_third
                         Run.empty_labels
  = (Raise ValueError,
     logs [Randint 0; Randint 1; Randint 424242] Run.empty_labels).
Proof.
  assert (H1 : 2 < max_tries) by (unfold max_tries; lia).
  assert (H2 : ∀ j, j < 2 → no_coverage (Run.one_coordinate_third j)).
  { intros j Hj. assert (j = 0 ∨ j = 1) as [-> | ->] by lia;
      (split; [by eexists _, _|done]). }
  assert (H3 : draw_raises (Run.one_coordinate_third 2) ValueError)
    by (left; reflexivity).
  split; [exact H1|]. split; [exact H2|]. split; [exact H3|].
  exact (proj1 (random_point_search_stops_at_first_exception
    Run.THUMB_METERS Run.one_coordinate_third 2 ValueError Run.empty_labels
    H1 H2 H3)).
Defined.

Lemma thumbnail_fetch_returns_first_loading_attempt_witness :
  1 < tries ∧
  (∀ j, j < 1 → loads (Run.loads_second j) = false) ∧
  loads (Run.loads_second 1) = true ∧
  ∃ url content evs,
    thumb_url (Run.loads_second 1) = Ok url ∧
    response (Run.loads_second 1) = Ok (200%Z, content) ∧
    fetch_valid_thumbnail Run.THUMB_PIXELS
      (BufferBounds (RandomPoint 424242) Run.THUMB_METERS) tries timeout
      Run.loads_second Run.empty_labels
    = (Ok (OVal (Str url), OImage (Image content)),
       logs evs Run.empty_labels) ∧
    count is_attempt evs = 2.
Proof.
  assert (H1 : 1 < tries) by (unfold tries; lia).
  assert (H2 : ∀ j, j < 1 → loads (Run.loads_second j) = false).
  { intros j Hj. assert (j = 0) as -> by lia. reflexivity. }
  assert (H3 : loads (Run.loads_second 1) = true)
    by (vm_compute; reflexivity).
  split; [exact H1|]. split; [exact H2|]. split; [exact H3|].
  exact (thumbnail_fetch_returns_first_loading_attempt
           Run.THUMB_PIXELS
           (BufferBounds (RandomPoint 424242) Run.THUMB_METERS)
           Run.loads_second 1 Run.empty_labels H1 H2 H3).
Defined.

Lemma thumbnail_result_is_none_or_a_loaded_image_witness :
  fetch_valid_thumbnail Run.THUMB_PIXELS
    (BufferBounds (RandomPoint 424242) Run.THUMB_METERS) tries timeout
    Run.no_thumbnail Run.empty_labels
  = (Ok (ONone, ONone),
     (fetch_valid_thumbnail Run.THUMB_PIXELS
        (BufferBounds (RandomPoint 424242) Run.THUMB_METERS) tries timeout
        Run.no_thumbnail Run.empty_labels).2) ∧
  ((ONone = ONone ∧ ONone = ONone ∧
    ∀ j, j < tries → loads (Run.no_thumbnail j) = false) ∨
   ∃ k u content,
     k < tries ∧ loads (Run.no_thumbnail k) = true ∧
     thumb_url (Run.no_thumbnail k) = Ok u ∧
     response (Run.no_thumbnail k) = Ok (200%Z, content) ∧
     (10000 < Z.of_nat (length content))%Z ∧
     ONone = OVal (Str u) ∧ ONone = OImage (Image content)).
Proof.
  assert (H : fetch_valid_thumbnail Run.THUMB_PIXELS
                (BufferBounds (RandomPoint 424242) Run.THUMB_METERS)
                tries timeout Run.no_thumbnail Run.empty_labels
              = (Ok (ONone, ONone),
                 (fetch_valid_thumbnail Run.THUMB_PIXELS
                    (BufferBounds (RandomPoint 424242) Run.THUMB_METERS)
                    tries timeout Run.no_thumbnail Run.empty_labels).2))
    by (vm_compute; reflexivity).
  split; [exact H|].
  exact (thumbnail_result_is_none_or_a_loaded_image _ _ _ _ _ _ _ _ _ H).
Defined.

Lemma submitted_save_outlives_the_next_search_witness :
  Exists (λ c, isspace c = false) Run.caption ∧
  save_submission Run.THUMB_METERS Run.SAMPLE_SCALE Run.arrow
    (BufferBounds (RandomPoint 424242) Run.THUMB_METERS) Run.caption
    (Ok [Run.feature]) Run.on_display
  = (Ok (), (save_submission Run.THUMB_METERS Run.SAMPLE_SCALE Run.arrow
               (BufferBounds (RandomPoint 424242) Run.THUMB_METERS)
               Run.caption (Ok [Run.feature]) Run.on_display).2) ∧
  (submit Run.THUMB_METERS Run.SAMPLE_SCALE Run.arrow
     (BufferBounds (RandomPoint 424242) Run.THUMB_METERS) Run.caption
     (Ok [Run.feature]) Run.rate_limited Run.on_display).1
  = Raise EEException ∧
  parquet_rows
    (submit Run.THUMB_METERS Run.SAMPLE_SCALE Run.arrow
       (BufferBounds (RandomPoint 424242) Run.THUMB_METERS) Run.caption
       (Ok [Run.feature]) Run.rate_limited Run.on_display).2 = 1 ∧
  current
    (submit Run.THUMB_METERS Run.SAMPLE_SCALE Run.arrow
       (BufferBounds (RandomPoint 424242) Run.THUMB_METERS) Run.caption
       (Ok [Run.feature]) Run.rate_limited Run.on_display).2
  = current Run.on_display.
Proof.
  assert (H1 : Exists (λ c, isspace c = false) Run.caption)
    by (right; left; reflexivity).
  assert (H2 : save_submission Run.THUMB_METERS Run.SAMPLE_SCALE Run.arrow
                 (BufferBounds (RandomPoint 424242) Run.THUMB_METERS)
                 Run.caption (Ok [Run.feature]) Run.on_display
               = (Ok (), (save_submission Run.THUMB_METERS Run.SAMPLE_SCALE Run.arrow
                            (BufferBounds (RandomPoint 424242)
                                          Run.THUMB_METERS)
                            Run.caption (Ok [Run.feature])
                            Run.on_display).2))
    by (vm_compute; reflexivity).
  split; [exact H1|]. split; [exact H2|].
  destruct (submitted_save_outlives_the_next_search
              Run.THUMB_METERS Run.SAMPLE_SCALE Run.arrow
              (BufferBounds (RandomPoint 424242) Run.THUMB_METERS)
              Run.caption (Ok [Run.feature]) Run.rate_limited
              Run.on_display _ H1 H2)
    as (evs & _ & _ & Hp & _ & Hr & Hc & _).
  split; [exact Hr|]. split; [|exact Hc].
  unfold parquet_rows. rewrite Hp. vm_compute. reflexivity.
Defined.

Lemma sampler_writes_only_on_a_requested_save_witness :
  ¬ same_files Run.on_display
      (sentinel_script Run.THUMB_METERS Run.SAMPLE_SCALE Run.THUMB_PIXELS Run.arrow
         false true false Run.caption Run.rate_limited Run.loads_second
         (Ok [Run.feature]) Run.covered_third (true, Run.on_display)).2.2 ∧
  true = true ∧
  save_requested true false Run.caption Run.loads_second (Ok [Run.feature]).
Proof.
  assert (H : ¬ same_files Run.on_display
                (sentinel_script Run.THUMB_METERS Run.SAMPLE_SCALE
                   Run.THUMB_PIXELS Run.arrow false true false Run.caption
                   Run.rate_limited Run.loads_second (Ok [Run.feature])
                   Run.covered_third (true, Run.on_display)).2.2).
  { intros [Hj _]. vm_compute in Hj. discriminate. }
  split; [exact H|].
  exact (sampler_writes_only_on_a_requested_save _ _ _ _ _ _ _ _ _ _ _ _ _ _ H).
Defined.

Lemma sampler_session_stays_well_formed_witness :
  searched (current Run.on_display) ∧
  searched (current
    (sentinel_script Run.THUMB_METERS Run.SAMPLE_SCALE Run.THUMB_PIXELS Run.arrow
       false false true Run.caption Run.rate_limited Run.loads_second
       (Ok [Run.feature]) Run.covered_third (true, Run.on_display)).2.2).
Proof.
  assert (H : searched (current Run.on_display)).
  { right. by eexists _, _, _, _. }
  split; [exact H|].
  exact (proj1 (sampler_session_stays_well_formed
    Run.THUMB_METERS Run.SAMPLE_SCALE Run.THUMB_PIXELS Run.arrow
    false false true Run.caption Run.rate_limited Run.loads_second
    (Ok [Run.feature]) Run.covered_third true Run.on_display H)).
Defined.

Lemma no_point_is_a_dead_end_witness :
  current Run.nothing_found = Some no_point ∧
  sentinel_script Run.THUMB_METERS Run.SAMPLE_SCALE Run.THUMB_PIXELS Run.arrow
    true true true Run.caption Run.covered_third Run.loads_second
    (Ok [Run.feature]) Run.covered_third (true, Run.nothing_found)
  = (Ok (Stopped (Some "Could not find visible imagery; try smaller thumbnail or larger scale.")),
     (true, loaded Run.nothing_found)).
Proof.
  assert (H : current Run.nothing_found = Some no_point) by reflexivity.
  split; [exact H|].
  exact (proj1 (no_point_is_a_dead_end
    Run.THUMB_METERS Run.SAMPLE_SCALE Run.THUMB_PIXELS Run.arrow
    true true true Run.caption Run.covered_third Run.loads_second
    (Ok [Run.feature]) Run.covered_third Run.nothing_found H)).
Defined.

Lemma picker_acts_only_on_a_click_with_the_button_witness :
  (trace (picker_script Run.THUMB_METERS Run.SAMPLE_SCALE Run.arrow Run.clicked
            Run.caption true (Ok [Run.feature]) Run.empty_labels).2
   ≠ trace Run.empty_labels ∨
   ¬ same_files Run.empty_labels
       (picker_script Run.THUMB_METERS Run.SAMPLE_SCALE Run.arrow Run.clicked
          Run.caption true (Ok [Run.feature]) Run.empty_labels).2) ∧
  true = true ∧ truth Run.clicked = true.
Proof.
  assert (H : trace (picker_script Run.THUMB_METERS Run.SAMPLE_SCALE Run.arrow
                       Run.clicked Run.caption true (Ok [Run.feature])
                       Run.empty_labels).2
              ≠ trace Run.empty_labels ∨
              ¬ same_files Run.empty_labels
                  (picker_script Run.THUMB_METERS Run.SAMPLE_SCALE Run.arrow
                     Run.clicked Run.caption true (Ok [Run.feature])
                     Run.empty_labels).2).
  { left. intros Ht. vm_compute in Ht. discriminate. }
  split; [exact H|].
  destruct (picker_acts_only_on_a_click_with_the_button
              Run.THUMB_METERS Run.SAMPLE_SCALE Run.arrow Run.clicked Run.caption
              true (Ok [Run.feature]) Run.empty_labels H) as (Hb & Ht & _).
  split; [exact Hb|exact Ht].
Defined.

Lemma session_in_sync_witness :
  session Run.THUMB_METERS Run.SAMPLE_SCALE Run.arrow
    (run Run.THUMB_METERS Run.SAMPLE_SCALE Run.arrow Run.shown Run.caption
         (Ok [Run.far_feature]) saved_once).2 ∧
  in_sync (run Run.THUMB_METERS Run.SAMPLE_SCALE Run.arrow Run.shown
               Run.caption (Ok [Run.far_feature]) saved_once).2 ∧
  json_rows (run Run.THUMB_METERS Run.SAMPLE_SCALE Run.arrow Run.shown
                 Run.caption (Ok [Run.far_feature]) saved_once).2 = 2 ∧
  parquet_rows (run Run.THUMB_METERS Run.SAMPLE_SCALE Run.arrow Run.shown
                    Run.caption (Ok [Run.far_feature]) saved_once).2 = 1.
Proof.
  assert (H : session Run.THUMB_METERS Run.SAMPLE_SCALE Run.arrow
                (run Run.THUMB_METERS Run.SAMPLE_SCALE Run.arrow Run.shown
                     Run.caption (Ok [Run.far_feature]) saved_once).2).
  { apply session_run. apply session_run. apply session_start. }
  split; [exact H|]. split.
  - exact (proj1 (session_in_sync _ _ _ _ H)).
  - split; vm_compute; reflexivity.
Defined.
